(** * Personal-AI-Assistant: the agent loop, its specialists and the request interface

    A shallow embedding of the Python sources (SupervisorAgent.py, EmailAgent.py,
    ContactAgent.py, CalendarAgent.py, SearchAgent.py, ContentCreatorAgent.py,
    main.py).  Python calls that may raise are functions into [Outcome]; the
    language model, the Google/Tavily providers and the tool executor are the
    external collaborators and enter as Section variables. *)

From Stdlib Require Import Ascii String List Arith Lia.
From stdpp Require Import base option list strings gmap.
Import ListNotations.
Open Scope string_scope.
Set Warnings "-register-all".

(** ** Python results: a value or a raised exception *)

Module Py.

(** The exception classes the sources distinguish: [except HttpError] in the
    Google tools, everything else only under [except Exception]. *)
Inductive exn : Type :=
| HttpError (msg : string)
| Exception (cls msg : string).

(** [str(e)], as interpolated by the f-strings of the sources. *)
Definition exn_str (e : exn) : string :=
  match e with
  | HttpError msg => msg
  | Exception _ msg => msg
  end.

Definition is_HttpError (e : exn) : bool :=
  match e with
  | HttpError _ => true
  | Exception _ _ => false
  end.

Inductive Outcome (A : Type) : Type :=
| Return (a : A)
| Raise (e : exn).
Arguments Return {A} a.
Arguments Raise {A} e.

Definition bind {A B} (c : Outcome A) (k : A -> Outcome B) : Outcome B :=
  match c with
  | Return a => k a
  | Raise e => Raise e
  end.

(** [try: c except HttpError as e: h e] *)
Definition try_except_HttpError {A} (c : Outcome A) (h : exn -> Outcome A) : Outcome A :=
  match c with
  | Return a => Return a
  | Raise e => if is_HttpError e then h e else Raise e
  end.

Definition returns {A} (c : Outcome A) : Prop := exists a, c = Return a.

End Py.
Export Py.

Declare Scope py_scope.
Delimit Scope py_scope with py.
Notation "x <- c ;; k" := (Py.bind c (fun x => k))
  (at level 100, c at next level, right associativity) : py_scope.
Open Scope py_scope.

(** [s in t] on Python strings, as a proposition. *)
Definition mentions (s t : string) : Prop := exists a b, t = a +:+ s +:+ b.
Definition begins_with (p t : string) : Prop := exists b, t = p +:+ b.

(** ** Messages and the graph state *)

Inductive MessageType : Type := human | ai | system | tool.

(** A value stored in [additional_kwargs]: the [function_call] entry a model
    reply carries when it requests a tool (name and arguments), or any other
    entry. *)
Inductive Kwarg : Type :=
| FunctionCall (name : string) (arguments : gmap string string)
| Other (text : string).

#[global] Instance Kwarg_eq_dec : EqDecision Kwarg.
Proof. solve_decision. Defined.

(** [langchain_core.messages.BaseMessage], with the attributes the sources
    read: [type], [content], [additional_kwargs].

    Modelled from the spec: [action_ref], the "opaque correlation identifier
    linking a tool_result message back to the action_request that produced
    it" of the spec's data model (the sources never read it; in the running
    system it belongs to the message classes of langchain_core, which are not
    part of the repository). *)
Record BaseMessage : Type := {
  type : MessageType;
  content : string;
  additional_kwargs : gmap string Kwarg;
  action_ref : option string
}.

Definition HumanMessage (c : string) : BaseMessage :=
  {| type := human; content := c; additional_kwargs := ∅; action_ref := None |}.
Definition AIMessage (c : string) : BaseMessage :=
  {| type := ai; content := c; additional_kwargs := ∅; action_ref := None |}.
Definition SystemMessage (c : string) : BaseMessage :=
  {| type := system; content := c; additional_kwargs := ∅; action_ref := None |}.

(** [class AgentState(TypedDict): messages: Annotated[Sequence[BaseMessage], lambda x, y: x + y]] *)
Record AgentState : Type := { messages : list BaseMessage }.

(** The reducer attached to [messages]: [lambda x, y: x + y]. *)
Definition reducer (x y : list BaseMessage) : list BaseMessage := x ++ y.

(** A node returns a partial state; the graph folds it into the state with the
    field's reducer. *)
Definition apply_update (state update : AgentState) : AgentState :=
  {| messages := reducer (messages state) (messages update) |}.

(** ["function_call" in m.additional_kwargs] *)
Definition has_function_call (m : BaseMessage) : bool :=
  bool_decide (is_Some (additional_kwargs m !! "function_call")).

(** [not m.additional_kwargs]: the dictionary is empty. *)
Definition no_additional_kwargs (m : BaseMessage) : bool :=
  bool_decide (additional_kwargs m = ∅).

(** [state["messages"][-1]], an IndexError on the empty list. *)
Definition last_message (ms : list BaseMessage) : Outcome BaseMessage :=
  match last ms with
  | Some m => Return m
  | None => Raise (Exception "IndexError" "list index out of range")
  end.

(** The two nodes every workflow of the repository adds: the model node
    ("supervisor" in SupervisorAgent.py, "agent" in the specialists) and
    "action". *)
Inductive Node : Type := Agent | Action.

(** What an execution of a compiled workflow shows: the events it streams
    ([{node: update}], in order) and how it ends. *)
Inductive Run : Type :=
| Done (final : AgentState)
| Crashed (e : exn)
| Pending
| Yield (key : Node) (value : AgentState) (rest : Run).

(** The control states of the loop. *)
Inductive Control : Type := At (n : Node) | Ended.

Section AgentLoop.

(** The system prompt of the workflow at hand. *)
Variable SYSTEM_PROMPT : string.
(** [model.invoke]: the external language model. *)
Variable model_invoke : list BaseMessage -> Outcome BaseMessage.
(** The node registered under "action" ([ToolNode(tools)]). *)
Variable tool_node : AgentState -> Outcome AgentState.

(** [def call_model(state)] *)
Definition call_model (state : AgentState) : Outcome AgentState :=
  response <- model_invoke (SystemMessage SYSTEM_PROMPT :: messages state) ;;
  Return {| messages := [response] |}.

(** [def should_continue(state)] *)
Definition should_continue (state : AgentState) : Outcome bool :=
  m <- last_message (messages state) ;;
  Return (has_function_call m).

(** The workflow:
    [set_entry_point(agent)],
    [add_conditional_edges(agent, should_continue, {True: "action", False: END})],
    [add_edge("action", agent)].
    [fuel] is the number of node executions the run may still take;
    [Pending] marks the point at which they are used up before the run has
    ended, the point at which the graph runtime gives up (see [budgeted]). *)
Fixpoint run (fuel : nat) (node : Node) (state : AgentState) : Run :=
  match fuel with
  | O => Pending
  | S fuel' =>
    match node with
    | Agent =>
      match call_model state with
      | Raise e => Crashed e
      | Return update =>
        let state' := apply_update state update in
        Yield Agent update
          match should_continue state' with
          | Raise e => Crashed e
          | Return true => run fuel' Action state'
          | Return false => Done state'
          end
      end
    | Action =>
      match tool_node state with
      | Raise e => Crashed e
      | Return update =>
        Yield Action update (run fuel' Agent (apply_update state update))
      end
    end
  end.

(** [app.stream(inputs)] *)
Definition stream (fuel : nat) (inputs : AgentState) : Run := run fuel Agent inputs.

(** How a run ends, the events forgotten. *)
Fixpoint ending (r : Run) : Run :=
  match r with
  | Yield _ _ rest => ending rest
  | other => other
  end.

(** [app.invoke(inputs)]: the final state, the raised exception, or nothing
    when the fuel ran out. *)
Definition invoke (fuel : nat) (inputs : AgentState) : option (Outcome AgentState) :=
  match ending (stream fuel inputs) with
  | Done final => Some (Return final)
  | Crashed e => Some (Raise e)
  | _ => None
  end.

(** Number of executions of a node in a run. *)
Fixpoint executions (n : Node) (r : Run) : nat :=
  match r with
  | Yield key _ rest =>
    (match n, key with Agent, Agent | Action, Action => 1 | _, _ => 0 end) + executions n rest
  | _ => 0
  end.

(** The model answers directly after [k] rounds of action requests: the
    first [k] replies carry a function call and each is served by the action
    node, the next reply carries none. *)
Fixpoint answers_after (k : nat) (state : AgentState) : Prop :=
  match k with
  | O => exists update,
      call_model state = Return update /\
      should_continue (apply_update state update) = Return false
  | S k' => exists update result,
      call_model state = Return update /\
      should_continue (apply_update state update) = Return true /\
      tool_node (apply_update state update) = Return result /\
      answers_after k' (apply_update (apply_update state update) result)
  end.

(** The same workflow as a transition system over the states REASONING
    ([At Agent]), ACTING ([At Action]) and DONE ([Ended]). *)
Inductive step : Control * AgentState -> Control * AgentState -> Prop :=
| step_request state update :
    call_model state = Return update ->
    should_continue (apply_update state update) = Return true ->
    step (At Agent, state) (At Action, apply_update state update)
| step_answer state update :
    call_model state = Return update ->
    should_continue (apply_update state update) = Return false ->
    step (At Agent, state) (Ended, apply_update state update)
| step_action state update :
    tool_node state = Return update ->
    step (At Action, state) (At Agent, apply_update state update).

Inductive steps : Control * AgentState -> Control * AgentState -> Prop :=
| steps_refl c : steps c c
| steps_cons c1 c2 c3 : step c1 c2 -> steps c2 c3 -> steps c1 c3.

(** What the claim of strict alternation says of a run that starts a
    Reasoning Step in [state]: a reply with a function call is followed by
    one execution of the action node whose update is appended before the
    next Reasoning Step; a reply without one ends the run with the state
    extended by that reply only. *)
Inductive alternates : AgentState -> Run -> Prop :=
| alt_answer state reply :
    has_function_call reply = false ->
    alternates state
      (Yield Agent {| messages := [reply] |}
         (Done {| messages := messages state ++ [reply] |}))
| alt_request state reply result rest :
    has_function_call reply = true ->
    alternates {| messages := (messages state ++ [reply]) ++ messages result |} rest ->
    alternates state
      (Yield Agent {| messages := [reply] |} (Yield Action result rest))
| alt_request_failed state reply e :
    has_function_call reply = true ->
    alternates state (Yield Agent {| messages := [reply] |} (Crashed e))
| alt_request_pending state reply :
    has_function_call reply = true ->
    alternates state (Yield Agent {| messages := [reply] |} Pending)
| alt_model_failed state e : alternates state (Crashed e)
| alt_pending state : alternates state Pending.

End AgentLoop.

(** ** The iteration budget *)

(** Modelled from the spec: LoopBudgetExceededError, "the loop's own runaway
    guard" (7).  In the running system it is the GraphRecursionError of the
    graph runtime (langgraph, missing from the sources), raised when a run
    reaches the recursion limit; the sources call [app.invoke], [app.stream]
    and [app.astream] without a config, so that the runtime's own limit
    applies. *)
Definition LoopBudgetExceededError : exn :=
  Exception "LoopBudgetExceededError" "the loop reached max_iterations without reaching DONE".

(** Modelled from the spec: the budget of LoopConfig, "max_iterations (bounds
    the number of Reasoning/Action alternations to guarantee termination)",
    and the transition "iteration counter exceeds max_iterations: terminates
    with a LoopBudgetExceededError" (3, 4.4).  A run that has taken its steps
    without reaching DONE ends with the error, after the events it has
    streamed.  The counter is the graph runtime's, missing from the sources. *)
Fixpoint budgeted (r : Run) : Run :=
  match r with
  | Pending => Crashed LoopBudgetExceededError
  | Yield key value rest => Yield key value (budgeted rest)
  | other => other
  end.

(** [app.stream(inputs)] under a budget of [max_iterations] node executions. *)
Definition stream_within (SYSTEM_PROMPT : string)
    (model_invoke : list BaseMessage -> Outcome BaseMessage)
    (tool_node : AgentState -> Outcome AgentState)
    (max_iterations : nat) (inputs : AgentState) : Run :=
  budgeted (stream SYSTEM_PROMPT model_invoke tool_node max_iterations inputs).

(** [app.invoke(inputs)] under the budget: the final state or the exception. *)
Definition invoke_within (SYSTEM_PROMPT : string)
    (model_invoke : list BaseMessage -> Outcome BaseMessage)
    (tool_node : AgentState -> Outcome AgentState)
    (max_iterations : nat) (inputs : AgentState) : Outcome AgentState :=
  match ending (stream_within SYSTEM_PROMPT model_invoke tool_node max_iterations inputs) with
  | Done final => Return final
  | Crashed e => Raise e
  | _ => Raise LoopBudgetExceededError
  end.

(** The text a caller reads off a final state: [result['messages'][-1].content]. *)
Definition final_text (result : AgentState) : Outcome string :=
  m <- last_message (messages result) ;;
  Return (content m).

(** ** The specialists exposed as tools *)

Section Specialists.

(** [os.environ] *)
Variable environ : gmap string string.
(** The language model behind [ChatGoogleGenerativeAI(...).bind(...)]. *)
Variable model_invoke : list BaseMessage -> Outcome BaseMessage.

(** [os.environ["GEMINI_API_KEY"]], a KeyError when unset;
    [str(KeyError(k))] shows the key in quotes. *)
Definition environ_get (key : string) : Outcome string :=
  match environ !! key with
  | Some v => Return v
  | None => Raise (Exception "KeyError" ("'" +:+ key +:+ "'"))
  end.

(** [result.items()] of the final state, a dictionary with the single key
    "messages". *)
Definition items (result : AgentState) : list (string * list BaseMessage) :=
  [("messages", messages result)].

(** The body every [run_*_agent] shares up to [app.invoke]:
    [app = create_*_agent_app()] builds the model (reading the API key) and
    compiles the workflow, then [app.invoke({"messages": [HumanMessage(content=query)]})]. *)
Definition create_and_invoke (SYSTEM_PROMPT : string)
    (tool_node : AgentState -> Outcome AgentState)
    (fuel : nat) (query : string) : option (Outcome AgentState) :=
  match environ_get "GEMINI_API_KEY" with
  | Raise e => Some (Raise e)
  | Return _ =>
    invoke SYSTEM_PROMPT model_invoke tool_node fuel {| messages := [HumanMessage query] |}
  end.

(** [def run_email_agent(query)]: the loop over [result.items()] looks for a
    key 'action', then falls back to the last message. *)
Definition run_email_agent (SYSTEM_PROMPT : string)
    (tool_node : AgentState -> Outcome AgentState)
    (fuel : nat) (query : string) : option (Outcome string) :=
  match create_and_invoke SYSTEM_PROMPT tool_node fuel query with
  | None => None
  | Some (Raise e) => Some (Raise e)
  | Some (Return result) =>
    match find (fun kv => String.eqb (fst kv) "action") (items result) with
    | Some _ => Some (Raise (Exception "TypeError" "list indices must be integers or slices, not str"))
    | None => Some (final_text result)
    end
  end.

(** [def run_contact_agent(query)] and [def run_calendar_agent(query)]:
    [return result['messages'][-1].content]. *)
Definition run_invoke_agent (SYSTEM_PROMPT : string)
    (tool_node : AgentState -> Outcome AgentState)
    (fuel : nat) (query : string) : option (Outcome string) :=
  match create_and_invoke SYSTEM_PROMPT tool_node fuel query with
  | None => None
  | Some (Raise e) => Some (Raise e)
  | Some (Return result) => Some (final_text result)
  end.

Definition run_contact_agent := run_invoke_agent.
Definition run_calendar_agent := run_invoke_agent.

(** The loop of [run_content_creator_agent] and [run_search_agent] over the
    streamed events: skip a value whose last message is a HumanMessage, keep
    the content of the last one whose [additional_kwargs] is empty. *)
Fixpoint scan_events (r : Run) (final_answer : string) : option (Outcome string) :=
  match r with
  | Done _ => Some (Return final_answer)
  | Crashed e => Some (Raise e)
  | Pending => None
  | Yield _ value rest =>
    match last_message (messages value) with
    | Raise e => Some (Raise e)
    | Return m =>
      match type m with
      | human => scan_events rest final_answer
      | _ =>
        if no_additional_kwargs m then scan_events rest (content m)
        else scan_events rest final_answer
      end
    end
  end.

Definition run_stream_agent (SYSTEM_PROMPT : string)
    (tool_node : AgentState -> Outcome AgentState)
    (fuel : nat) (query : string) : option (Outcome string) :=
  match environ_get "GEMINI_API_KEY" with
  | Raise e => Some (Raise e)
  | Return _ =>
    scan_events
      (stream SYSTEM_PROMPT model_invoke tool_node fuel {| messages := [HumanMessage query] |})
      ""
  end.

Definition run_content_creator_agent := run_stream_agent.
Definition run_search_agent := run_stream_agent.

End Specialists.

(** The five specialist tools of SupervisorAgent.py. *)
Inductive Specialist : Type :=
  email_agent | contact_agent | calendar_agent | content_creator_agent | search_agent.

Definition run_specialist (which : Specialist) :=
  match which with
  | email_agent => run_email_agent
  | contact_agent => run_contact_agent
  | calendar_agent => run_calendar_agent
  | content_creator_agent => run_content_creator_agent
  | search_agent => run_search_agent
  end.

(** A specialist's tool function under the budget: the exception of an
    exhausted run leaves the function as every other exception does, the
    functions having no handler. *)
Definition run_specialist_within (which : Specialist)
    (environ : gmap string string)
    (model_invoke : list BaseMessage -> Outcome BaseMessage)
    (SYSTEM_PROMPT : string) (tool_node : AgentState -> Outcome AgentState)
    (max_iterations : nat) (query : string) : Outcome string :=
  match run_specialist which environ model_invoke SYSTEM_PROMPT tool_node
          max_iterations query with
  | Some outcome => outcome
  | None => Raise LoopBudgetExceededError
  end.

(** The names under which SupervisorAgent.py registers the specialists. *)
Definition specialist_name (which : Specialist) : string :=
  match which with
  | email_agent => "run_email_agent"
  | contact_agent => "run_contact_agent"
  | calendar_agent => "run_calendar_agent"
  | content_creator_agent => "run_content_creator_agent"
  | search_agent => "run_search_agent"
  end.

(** ** main.py: the request interface *)

(** [class ChatRequest(BaseModel)], on the requests whose history entries
    hold texts only: an entry of [history] is a dictionary, of which "type"
    and "content" are read; either key may be missing.  The requests with
    arbitrary JSON values are those of [Wire] below, which agrees with this
    model on the text-valued ones. *)
Record ChatRequest : Type := {
  query : string;
  history : list (gmap string string)
}.

(** One iteration of [for msg in history]. *)
Definition reconstruct_step (messages : list BaseMessage) (msg : gmap string string)
    : list BaseMessage :=
  if bool_decide (msg !! "type" = Some "human") then
    messages ++ [HumanMessage (default "" (msg !! "content"))]
  else if bool_decide (msg !! "type" = Some "ai") then
    messages ++ [AIMessage (default "" (msg !! "content"))]
  else messages.

(** The message list built by [invoke_agent] before it starts the supervisor. *)
Definition reconstruct_messages (chat_request : ChatRequest) : list BaseMessage :=
  foldl reconstruct_step [] (history chat_request) ++ [HumanMessage (query chat_request)].

(** What the claim on the history says the list is: the human and ai entries
    in order, then the query. *)
Definition is_human_or_ai (msg : gmap string string) : bool :=
  bool_decide (msg !! "type" = Some "human") || bool_decide (msg !! "type" = Some "ai").

Definition entry_message (msg : gmap string string) : BaseMessage :=
  if bool_decide (msg !! "type" = Some "human")
  then HumanMessage (default "" (msg !! "content"))
  else AIMessage (default "" (msg !! "content")).

Definition spec_messages (chat_request : ChatRequest) : list BaseMessage :=
  map entry_message (List.filter is_human_or_ai (history chat_request))
  ++ [HumanMessage (query chat_request)].

(** A server-sent event: [data: {"content": ...}] or [data: {"error": ...}]. *)
Inductive ServerEvent : Type :=
| content_event (text : string)
| error_event (text : string).

(** [async def event_stream()], over the events of the supervisor's run: the
    first "supervisor" event whose last message has empty [additional_kwargs]
    is sent and ends the stream; an exception is sent as an error. *)
Fixpoint event_stream (r : Run) : option (list ServerEvent) :=
  match r with
  | Done _ => Some []
  | Crashed e =>
    Some [error_event ("An error occurred while processing your request: " +:+ exn_str e)]
  | Pending => None
  | Yield Action _ rest => event_stream rest
  | Yield Agent value rest =>
    match last_message (messages value) with
    | Raise e =>
      Some [error_event ("An error occurred while processing your request: " +:+ exn_str e)]
    | Return m =>
      if no_additional_kwargs m then Some [content_event (content m)]
      else event_stream rest
    end
  end.

(** [async def invoke_agent(chat_request)] *)
Definition invoke_agent (SUPERVISOR_SYSTEM_PROMPT : string)
    (model_invoke : list BaseMessage -> Outcome BaseMessage)
    (tool_node : AgentState -> Outcome AgentState)
    (fuel : nat) (chat_request : ChatRequest) : option (list ServerEvent) :=
  let inputs := {| messages := reconstruct_messages chat_request |} in
  event_stream (stream SUPERVISOR_SYSTEM_PROMPT model_invoke tool_node fuel inputs).

(** ** main.py: the request interface, on every request the model accepts *)

Module Wire.

(** A JSON value.  [history: list[dict]] puts no constraint on the values of
    an entry, so each may be any of these; a number is kept as written. *)
Inductive Json : Type :=
| JNull
| JBool (b : bool)
| JNumber (literal : string)
| JString (s : string)
| JArray (items : list Json)
| JObject (members : list (string * Json)).

(** [class ChatRequest(BaseModel): query: str; history: list[dict]] *)
Record ChatRequest : Type := {
  query : string;
  history : list (gmap string Json)
}.

(** [msg.get("type") == name]: equal only to the text [name]. *)
Definition type_is (msg : gmap string Json) (name : string) : bool :=
  match msg !! "type" with
  | Some (JString t) => bool_decide (t = name)
  | _ => false
  end.

(** [msg.get("content", "")] *)
Definition content_of (msg : gmap string Json) : Json :=
  default (JString "") (msg !! "content").

(** The message of class [t] with content [c] and nothing else set. *)
Definition text_message (t : MessageType) (c : string) : BaseMessage :=
  {| type := t; content := c; additional_kwargs := ∅; action_ref := None |}.

Section Reconstruct.

(** [HumanMessage(content=...)] and [AIMessage(content=...)] on a JSON
    value: the constructors of langchain validate the content and raise on
    one they refuse. *)
Variable make_message : MessageType -> Json -> Outcome BaseMessage.

(** One iteration of [for msg in history]. *)
Definition reconstruct_step (messages : list BaseMessage) (msg : gmap string Json)
    : Outcome (list BaseMessage) :=
  if type_is msg "human" then
    m <- make_message human (content_of msg) ;; Return (messages ++ [m])%list
  else if type_is msg "ai" then
    m <- make_message ai (content_of msg) ;; Return (messages ++ [m])%list
  else Return messages.

Fixpoint reconstruct_loop (messages : list BaseMessage) (history : list (gmap string Json))
    : Outcome (list BaseMessage) :=
  match history with
  | [] => Return messages
  | msg :: rest =>
    messages' <- reconstruct_step messages msg ;; reconstruct_loop messages' rest
  end.

(** The message list built by [invoke_agent] before it starts the supervisor. *)
Definition reconstruct_messages (chat_request : ChatRequest) : Outcome (list BaseMessage) :=
  messages <- reconstruct_loop [] (history chat_request) ;;
  Return (messages ++ [HumanMessage (query chat_request)])%list.

(** [async def invoke_agent(chat_request)]: an exception of the
    reconstruction leaves the function before the response and its stream
    exist. *)
Definition invoke_agent (SUPERVISOR_SYSTEM_PROMPT : string)
    (model_invoke : list BaseMessage -> Outcome BaseMessage)
    (tool_node : AgentState -> Outcome AgentState)
    (fuel : nat) (chat_request : ChatRequest) : Outcome (option (list ServerEvent)) :=
  messages <- reconstruct_messages chat_request ;;
  Return (event_stream (stream SUPERVISOR_SYSTEM_PROMPT model_invoke tool_node fuel
                          {| messages := messages |})).

(** What the claim on the history says of the list: the human and ai entries,
    in order, each as its message. *)
Definition is_human_or_ai (msg : gmap string Json) : bool :=
  type_is msg "human" || type_is msg "ai".

Definition entry_message (msg : gmap string Json) : Outcome BaseMessage :=
  make_message (if type_is msg "human" then human else ai) (content_of msg).

Fixpoint entry_messages (entries : list (gmap string Json)) : Outcome (list BaseMessage) :=
  match entries with
  | [] => Return []
  | msg :: rest =>
    m <- entry_message msg ;; ms <- entry_messages rest ;; Return (m :: ms)
  end.

End Reconstruct.

(** The message of a human or ai entry whose content is a text or missing. *)
Definition text_of_entry (msg : gmap string Json) : BaseMessage :=
  text_message (if type_is msg "human" then human else ai)
    match content_of msg with
    | JString s => s
    | _ => ""
    end.

Definition has_text_content (msg : gmap string Json) : Prop :=
  exists s, content_of msg = JString s.

(** What a constructor called with a content only returns is a message of
    the class asked for, with no [additional_kwargs]. *)
Definition constructs_plain (make_message : MessageType -> Json -> Outcome BaseMessage)
    : Prop :=
  forall t c m, make_message t c = Return m -> type m = t /\ additional_kwargs m = ∅.

End Wire.

(** A text-valued request as a request of [Wire]. *)
Definition as_wire (chat_request : ChatRequest) : Wire.ChatRequest :=
  {| Wire.query := query chat_request;
     Wire.history := map (fmap Wire.JString) (history chat_request) |}.

(** ** Values returned by the tools *)

(** The Python values the tools build: strings, [None], lists and dictionary
    literals (key order as written). *)
Inductive PyVal : Type :=
| PStr (s : string)
| PNone
| PList (l : list PyVal)
| PDict (d : list (string * PyVal)).

(** The keys of a dictionary value, in order. *)
Definition fields (v : PyVal) : option (list string) :=
  match v with
  | PDict d => Some (map fst d)
  | _ => None
  end.

(** [str.lower()] on texts whose letters are ASCII.  The sources compare a
    lower-cased text with the ASCII constants 're:', 'today' and 'tomorrow',
    for which this function decides as Python's does; where they compare two
    arbitrary lower-cased texts (contact names, label names) Python's
    [str.lower], which knows all of Unicode, is a parameter [str_lower] of
    the definitions, of which [lower] is the instance of the examples. *)
Definition lower_ascii (c : ascii) : ascii :=
  let n := nat_of_ascii c in
  if Nat.leb 65 n && Nat.leb n 90 then ascii_of_nat (n + 32) else c.

Fixpoint lower (s : string) : string :=
  match s with
  | EmptyString => EmptyString
  | String c s' => String (lower_ascii c) (lower s')
  end.

(** [s in t] on strings, as a test. *)
Fixpoint contains (s t : string) : bool :=
  String.prefix s t ||
  match t with
  | EmptyString => false
  | String _ t' => contains s t'
  end.

(** ** EmailAgent.py: [send_email] and [get_emails] *)

(** An entry of [results["messages"]]. *)
Record MessageStub : Type := { id : string; threadId : string }.

(** The answer of [messages().get(...)]: [payload.headers] as (name, value)
    pairs, and [snippet]. *)
Record MessageData : Type := {
  payload_headers : list (string * string);
  snippet : string
}.

(** [{h['name']: h['value'] for h in headers}]: a later header of the same
    name replaces an earlier one. *)
Definition headers_dict (hs : list (string * string)) : gmap string string :=
  foldl (fun d h => <[fst h := snd h]> d) ∅ hs.

Section EmailTools.

(** [get_gmail_service()] *)
Variable get_gmail_service : Outcome unit.
(** [base64.urlsafe_b64encode(MIMEText(...).as_bytes()).decode()] *)
Variable encode_message : string -> string -> string -> string.
(** [service.users().messages().send(userId="me", body={'raw': raw}).execute()] *)
Variable messages_send : string -> Outcome unit.
(** [service.users().messages().list(userId="me", q=query).execute()]: the
    value under "messages", when the key is there. *)
Variable messages_list : string -> Outcome (option (list MessageStub)).
(** [service.users().messages().get(userId="me", id=...).execute()] *)
Variable messages_get : string -> Outcome MessageData.

(** [def send_email(to, subject, body)]: no handler around the provider calls. *)
Definition send_email (to subject body : string) : Outcome string :=
  _ <- get_gmail_service ;;
  let encoded_message := encode_message to subject body in
  _ <- messages_send encoded_message ;;
  Return ("Email sent to " +:+ to +:+ ".").

(** The body of [for msg in messages[:5]], [emails] being the list built so far. *)
Fixpoint get_emails_loop (msgs : list MessageStub) (emails : list PyVal)
    : Outcome (list PyVal) :=
  match msgs with
  | [] => Return emails
  | msg :: rest =>
    msg_data <- messages_get (id msg) ;;
    let headers := headers_dict (payload_headers msg_data) in
    get_emails_loop rest
      (emails ++ [PDict [("id", PStr (id msg));
                         ("threadId", PStr (threadId msg));
                         ("subject", PStr (default "" (headers !! "Subject")));
                         ("from", PStr (default "" (headers !! "From")));
                         ("snippet", PStr (snippet msg_data))]])
  end.

(** [def get_emails(query)] *)
Definition get_emails (query : string) : Outcome PyVal :=
  _ <- get_gmail_service ;;
  results <- messages_list query ;;
  let messages := default [] results in
  match messages with
  | [] => Return (PStr "No emails found for that query.")
  | _ =>
    emails <- get_emails_loop (take 5 messages) [] ;;
    Return (PList emails)
  end.

End EmailTools.

(** ** CalendarAgent.py: [create_calendar_event] *)

Record CalendarEvent : Type := {
  ev_summary : string;
  ev_description : option string;
  ev_start : string * string;
  ev_end : string * string;
  ev_attendees : list string
}.

Definition LOCAL_TIMEZONE : string := "Asia/Kolkata".

(** An optional string inside an f-string: [None] prints as "None". *)
Definition fmt_optional (o : option string) : string := default "None" o.

Section CalendarTools.

(** [get_calendar_service()] *)
Variable get_calendar_service : Outcome unit.
(** [service.events().insert(calendarId='primary', body=event, sendUpdates="all").execute()],
    answering [created_event.get('htmlLink')]. *)
Variable events_insert : CalendarEvent -> Outcome (option string).

(** [def create_calendar_event(...)]: the session is obtained outside the
    [try]; the handler is [except HttpError]. *)
Definition create_calendar_event (summary start_time end_time : string)
    (description : option string) (attendees : option (list string)) : Outcome string :=
  _ <- get_calendar_service ;;
  let event := {| ev_summary := summary;
                  ev_description := description;
                  ev_start := (start_time, LOCAL_TIMEZONE);
                  ev_end := (end_time, LOCAL_TIMEZONE);
                  ev_attendees := default [] attendees |} in
  try_except_HttpError
    (htmlLink <- events_insert event ;;
     Return ("Event created successfully. Summary: '" +:+ summary +:+ "'. Link: "
             +:+ fmt_optional htmlLink))
    (fun error => Return ("An error occurred: " +:+ exn_str error)).

End CalendarTools.

(** ** ContactAgent.py: [get_contacts] *)

Record Person : Type := {
  names : option (list (option string));
  phoneNumbers : option (list (option string));
  emailAddresses : option (list (option string))
}.

(** [p.get("value")] in a list comprehension: the value, or [None]. *)
Definition optional_value (o : option string) : PyVal :=
  match o with
  | Some v => PStr v
  | None => PNone
  end.

(** [any(lower_query in n.get("displayName", "").lower() for n in person.get("names", []))] *)
Definition person_matches (str_lower : string -> string)
    (lower_query : string) (person : Person) : bool :=
  existsb (fun n => contains lower_query (str_lower (default "" n)))
          (default [] (names person)).

(** [person.get("names", [{}])[0].get("displayName", "N/A")] *)
Definition first_display_name (person : Person) : Outcome string :=
  match default [None] (names person) with
  | n :: _ => Return (default "N/A" n)
  | [] => Raise (Exception "IndexError" "list index out of range")
  end.

(** The record appended for a matching person. *)
Definition contact_record (person : Person) : Outcome PyVal :=
  name <- first_display_name person ;;
  let phones := map optional_value (default [] (phoneNumbers person)) in
  let emails := map optional_value (default [] (emailAddresses person)) in
  Return (PDict [("name", PStr name); ("phones", PList phones); ("emails", PList emails)]).

(** [for person in all_contacts], [found_contacts] being the list built so far. *)
Fixpoint get_contacts_loop (str_lower : string -> string)
    (lower_query : string) (all_contacts : list Person)
    (found_contacts : list PyVal) : Outcome (list PyVal) :=
  match all_contacts with
  | [] => Return found_contacts
  | person :: rest =>
    if person_matches str_lower lower_query person then
      record <- contact_record person ;;
      get_contacts_loop str_lower lower_query rest (found_contacts ++ [record])
    else get_contacts_loop str_lower lower_query rest found_contacts
  end.

Section ContactTools.

(** [str.lower], a builtin of Python; nothing is assumed of it. *)
Variable str_lower : string -> string.
(** [get_people_service()] *)
Variable get_people_service : Outcome unit.
(** [service.people().connections().list(...).execute()]: the value under
    "connections", when the key is there. *)
Variable connections_list : Outcome (option (list Person)).

(** [def get_contacts(query)]: the session is obtained outside the [try];
    the handler is [except HttpError]. *)
Definition get_contacts (query : string) : Outcome PyVal :=
  _ <- get_people_service ;;
  try_except_HttpError
    (connections <- connections_list ;;
     let all_contacts := default [] connections in
     let lower_query := str_lower query in
     found_contacts <- get_contacts_loop str_lower lower_query all_contacts [] ;;
     Return (match found_contacts with
             | [] => PStr "No contacts found matching that query."
             | _ => PList found_contacts
             end))
    (fun e => Return (PStr ("An error occurred: " +:+ exn_str e))).

End ContactTools.

(** The name a contact record of [get_contacts] carries, for a person that
    matched. *)
Definition record_of (person : Person) : PyVal :=
  PDict [("name", PStr (default "N/A" (default None (head (default [None] (names person))))));
         ("phones", PList (map optional_value (default [] (phoneNumbers person))));
         ("emails", PList (map optional_value (default [] (emailAddresses person))))].

(** The three shapes of a result of [get_contacts]. *)
Inductive contacts_shape (str_lower : string -> string)
    (query : string) (all_contacts : list Person) : PyVal -> Prop :=
| shape_found :
    List.filter (person_matches str_lower (str_lower query)) all_contacts <> [] ->
    contacts_shape str_lower query all_contacts
      (PList (map record_of
                (List.filter (person_matches str_lower (str_lower query)) all_contacts)))
| shape_none :
    List.filter (person_matches str_lower (str_lower query)) all_contacts = [] ->
    contacts_shape str_lower query all_contacts
      (PStr "No contacts found matching that query.")
| shape_error text :
    begins_with "An error occurred:" text ->
    contacts_shape str_lower query all_contacts (PStr text).

(** ** EmailAgent.py: the other tools *)

(** [a or b] on optional strings: [None] and the empty string are falsy. *)
Definition py_or (a b : option string) : option string :=
  match a with
  | Some EmptyString | None => b
  | Some s => Some s
  end.

(** [bool(s)] of an optional string. *)
Definition truthy (o : option string) : bool :=
  match o with
  | Some EmptyString | None => false
  | Some _ => true
  end.

(** [d[k]] on a dictionary of strings, a KeyError when the key is missing;
    [str(KeyError(k))] shows the key in quotes. *)
Definition getitem (d : gmap string string) (k : string) : Outcome string :=
  match d !! k with
  | Some v => Return v
  | None => Raise (Exception "KeyError" ("'" +:+ k +:+ "'"))
  end.

(** The answer of [messages().get(...)] as [reply_to_email] reads it:
    [threadId] and [payload.headers]. *)
Record OriginalMessage : Type := {
  original_threadId : string;
  original_headers : list (string * string)
}.

(** The MIME message [reply_to_email] builds: the four headers it sets and
    the body. *)
Record ReplyMessage : Type := {
  reply_to : option string;
  reply_subject : string;
  reply_in_reply_to : string;
  reply_references : string;
  reply_body : string
}.

(** [if not subject.lower().startswith('re:'): subject = f"Re: {subject}"] *)
Definition reply_subject_of (subject : string) : string :=
  if String.prefix "re:" (lower subject) then subject else "Re: " +:+ subject.

(** An entry of [labels_response["labels"]]. *)
Record Label : Type := { label_id : string; label_name : string }.

(** [next((l['id'] for l in labels if l['name'].lower() == label_name.lower()), None)] *)
Definition find_label_id (str_lower : string -> string)
    (labels : list Label) (name : string) : option string :=
  label_id <$> find (fun l => String.eqb (str_lower (label_name l)) (str_lower name)) labels.

Section MoreEmailTools.

(** [str.lower], a builtin of Python; nothing is assumed of it. *)
Variable str_lower : string -> string.
Variable get_gmail_service : Outcome unit.
(** [service.users().messages().get(userId='me', id=message_id).execute()] *)
Variable messages_get_original : string -> Outcome OriginalMessage.
(** [base64.urlsafe_b64encode(message.as_bytes()).decode()] of the reply. *)
Variable encode_reply : ReplyMessage -> Outcome string.
(** [messages().send(userId='me', body={'raw': raw, 'threadId': thread_id}).execute()] *)
Variable messages_send_in_thread : string -> string -> Outcome unit.
(** [service.users().labels().list(userId='me').execute()]: the value under
    "labels", when the key is there. *)
Variable labels_list : Outcome (option (list Label)).
(** [messages().modify(userId=..., id=message_id, body={'addLabelIds': add, 'removeLabelIds': remove}).execute()] *)
Variable messages_modify : string -> list string -> list string -> Outcome unit.
(** [base64.urlsafe_b64encode(MIMEText(...).as_bytes()).decode()] *)
Variable encode_message : string -> string -> string -> string.
(** [drafts().create(userId='me', body={'message': {'raw': raw}}).execute()] *)
Variable drafts_create : string -> Outcome unit.

(** [def reply_to_email(message_id, body)] *)
Definition reply_to_email (message_id body : string) : Outcome string :=
  _ <- get_gmail_service ;;
  original_message <- messages_get_original message_id ;;
  let thread_id := original_threadId original_message in
  let headers := headers_dict (original_headers original_message) in
  let to_addr := py_or (headers !! "Reply-To") (headers !! "From") in
  let subject := reply_subject_of (default "" (headers !! "Subject")) in
  in_reply_to <- getitem headers "Message-ID" ;;
  message_id_again <- getitem headers "Message-ID" ;;
  let message := {| reply_to := to_addr;
                    reply_subject := subject;
                    reply_in_reply_to := in_reply_to;
                    reply_references :=
                      default "" (headers !! "References") +:+ " " +:+ message_id_again;
                    reply_body := body |} in
  encoded_message <- encode_reply message ;;
  _ <- messages_send_in_thread encoded_message thread_id ;;
  Return ("Replied to message in thread " +:+ thread_id +:+ ".").

(** [def add_label_to_email(message_id, label_name)] *)
Definition add_label_to_email (message_id label_name : string) : Outcome string :=
  _ <- get_gmail_service ;;
  labels_response <- labels_list ;;
  let labels := default [] labels_response in
  let label_id := find_label_id str_lower labels label_name in
  if negb (truthy label_id) then
    Return ("Error: Label '" +:+ label_name +:+ "' not found.")
  else
    _ <- messages_modify message_id [default "" label_id] [] ;;
    Return ("Label '" +:+ label_name +:+ "' added to message " +:+ message_id +:+ ".").

(** [def create_draft(to, subject, body)] *)
Definition create_draft (to subject body : string) : Outcome string :=
  _ <- get_gmail_service ;;
  let encoded_message := encode_message to subject body in
  _ <- drafts_create encoded_message ;;
  Return ("Draft created for " +:+ to +:+ " with subject '" +:+ subject +:+ "'.").

(** [def mark_as_unread(message_id)] *)
Definition mark_as_unread (message_id : string) : Outcome string :=
  _ <- get_gmail_service ;;
  _ <- messages_modify message_id ["UNREAD"] ["READ"] ;;
  Return ("Message " +:+ message_id +:+ " marked as unread.").

End MoreEmailTools.

(** ** CalendarAgent.py: the other tools *)

(** [try: c except Exception as e: h e] *)
Definition try_except {A} (c : Outcome A) (h : exn -> Outcome A) : Outcome A :=
  match c with
  | Return a => Return a
  | Raise e => h e
  end.

(** An entry of [events_result["items"]]: the keys [get_calendar_events]
    reads, each of which may be missing; [start] holds "dateTime" or "date". *)
Record CalendarItem : Type := {
  item_id : option string;
  item_summary : option string;
  item_start : option (gmap string string)
}.

(** [d[k]] on an optional field of an item. *)
Definition getfield {A} (field : option A) (k : string) : Outcome A :=
  match field with
  | Some v => Return v
  | None => Raise (Exception "KeyError" ("'" +:+ k +:+ "'"))
  end.

(** One element of the list comprehension of [get_calendar_events]. *)
Definition event_entry (event : CalendarItem) : Outcome PyVal :=
  i <- getfield (item_id event) "id" ;;
  summary <- getfield (item_summary event) "summary" ;;
  start <- getfield (item_start event) "start" ;;
  Return (PDict [("id", PStr i); ("summary", PStr summary);
                 ("start", optional_value
                             (match start !! "dateTime" with
                              | Some v => Some v
                              | None => start !! "date"
                              end))]).

(** The list comprehension: the first failing element ends it. *)
Fixpoint event_entries (events : list CalendarItem) : Outcome (list PyVal) :=
  match events with
  | [] => Return []
  | event :: rest =>
    entry <- event_entry event ;;
    entries <- event_entries rest ;;
    Return (entry :: entries)
  end.

(** An event resource as [update_calendar_event] handles it: the keys it
    reads or writes, and the other keys of the event. *)
Record EventResource : Type := {
  event_id : option string;
  event_summary : option string;
  event_start : option (gmap string string);
  event_end : option (gmap string string);
  event_other : list (string * string)
}.

(** [if value: event[key]['dateTime'] = value], a KeyError when [key] is
    missing from the event. *)
Definition set_dateTime (field : option (gmap string string)) (key : string)
    (value : option string) : Outcome (option (gmap string string)) :=
  if truthy value then
    d <- getfield field key ;;
    Return (Some (<["dateTime" := default "" value]> d))
  else Return field.

Section MoreCalendarTools.

(** [datetime.date] *)
Variable date : Type.
Variable get_calendar_service : Outcome unit.
(** [datetime.utcnow().date()] *)
Variable utcnow_date : date.
(** [d + timedelta(days=1)] *)
Variable next_day : date -> date.
(** [datetime.strptime(day, "%Y-%m-%d").date()], a ValueError on another format. *)
Variable strptime : string -> Outcome date.
(** [datetime.combine(d, datetime.min.time()).isoformat() + "Z"] and the same
    with [datetime.max.time()]. *)
Variable start_of_day_iso : date -> string.
Variable end_of_day_iso : date -> string.
(** [service.events().list(calendarId='primary', timeMin=..., timeMax=...,
    maxResults=20, singleEvents=True, orderBy='startTime').execute()]: the
    value under "items", when the key is there. *)
Variable events_list : string -> string -> Outcome (option (list CalendarItem)).
(** [service.events().get(calendarId='primary', eventId=event_id).execute()] *)
Variable events_get : string -> Outcome EventResource.
(** [service.events().update(calendarId='primary', eventId=..., body=event).execute()],
    answering [updated_event.get('htmlLink')]. *)
Variable events_update : string -> EventResource -> Outcome (option string).
(** [service.events().delete(calendarId='primary', eventId=event_id).execute()] *)
Variable events_delete : string -> Outcome unit.

(** The date [get_calendar_events] queries for [day]. *)
Definition target_date (day : option string) : Outcome date :=
  match day with
  | None => Return utcnow_date
  | Some d =>
    if String.eqb (lower d) "today" then Return utcnow_date
    else if String.eqb (lower d) "tomorrow" then Return (next_day utcnow_date)
    else strptime d
  end.

(** [def get_calendar_events(day="today")]: the session is obtained outside
    the [try]; the handler is [except Exception]. *)
Definition get_calendar_events (day : option string) : Outcome PyVal :=
  _ <- get_calendar_service ;;
  try_except
    (target <- target_date day ;;
     let start_time_iso := start_of_day_iso target in
     let end_time_iso := end_of_day_iso target in
     events_result <- events_list start_time_iso end_time_iso ;;
     let events := default [] events_result in
     match events with
     | [] => Return (PStr ("No upcoming events found for " +:+ fmt_optional day +:+ "."))
     | _ => entries <- event_entries events ;; Return (PList entries)
     end)
    (fun e => Return (PStr ("An error occurred: " +:+ exn_str e))).

(** The event [update_calendar_event] sends back. *)
Definition updated_event (event : EventResource)
    (summary start_time end_time : option string) : Outcome EventResource :=
  let summary' := if truthy summary then summary else event_summary event in
  start' <- set_dateTime (event_start event) "start" start_time ;;
  end' <- set_dateTime (event_end event) "end" end_time ;;
  Return {| event_id := event_id event;
            event_summary := summary';
            event_start := start';
            event_end := end';
            event_other := event_other event |}.

(** [def update_calendar_event(event_id, summary=None, start_time=None, end_time=None)] *)
Definition update_calendar_event (id : string)
    (summary start_time end_time : option string) : Outcome string :=
  _ <- get_calendar_service ;;
  try_except_HttpError
    (event <- events_get id ;;
     event' <- updated_event event summary start_time end_time ;;
     own_id <- getfield (event_id event') "id" ;;
     htmlLink <- events_update own_id event' ;;
     Return ("Event updated successfully. Link: " +:+ fmt_optional htmlLink))
    (fun error => Return ("An error occurred: " +:+ exn_str error)).

(** [def delete_calendar_event(event_id)] *)
Definition delete_calendar_event (id : string) : Outcome string :=
  _ <- get_calendar_service ;;
  try_except_HttpError
    (_ <- events_delete id ;;
     Return ("Event with ID " +:+ id +:+ " deleted successfully."))
    (fun error => Return ("An error occurred: " +:+ exn_str error)).

End MoreCalendarTools.

(** ** ContactAgent.py: [add_or_update_contact] *)

(** The body of [createContact]. *)
Record NewContact : Type := {
  new_names : list string;
  new_phoneNumbers : list string;
  new_emailAddresses : list string
}.

(** [[{"value": x}] if x else []] *)
Definition value_list (x : option string) : list string :=
  if truthy x then [default "" x] else [].

Section MoreContactTools.

Variable get_people_service : Outcome unit.
(** [service.people().createContact(body=new_contact).execute()], answering
    the value under "names": per entry the display name, when there is one. *)
Variable createContact : NewContact -> Outcome (option (list (option string))).

(** [created_person.get('names')[0].get('displayName')] *)
Definition created_display_name (created_names : option (list (option string)))
    : Outcome (option string) :=
  match created_names with
  | None => Raise (Exception "TypeError" "'NoneType' object is not subscriptable")
  | Some [] => Raise (Exception "IndexError" "list index out of range")
  | Some (n :: _) => Return n
  end.

(** [def add_or_update_contact(name, phone=None, email=None)] *)
Definition add_or_update_contact (name : string) (phone email : option string)
    : Outcome string :=
  _ <- get_people_service ;;
  try_except_HttpError
    (let new_contact := {| new_names := [name];
                           new_phoneNumbers := value_list phone;
                           new_emailAddresses := value_list email |} in
     created_person <- createContact new_contact ;;
     displayName <- created_display_name created_person ;;
     Return ("Successfully created/updated contact: " +:+ fmt_optional displayName))
    (fun e => Return ("An error occurred: " +:+ exn_str e)).

End MoreContactTools.

(** ** The credential flow of the three Google agents *)

(** [google.oauth2.credentials.Credentials], the attributes the flow reads. *)
Record Credentials : Type := {
  cred_valid : bool;
  cred_expired : bool;
  cred_refresh_token : option string
}.

Section CredentialFlow.

(** [Credentials.from_authorized_user_file(TOKEN_FILE, SCOPES)], on the
    content of the file. *)
Variable from_authorized_user_file : string -> Outcome Credentials.
(** [creds.to_json()] *)
Variable to_json : Credentials -> string.
(** [creds.refresh(Request())], answering the refreshed credentials. *)
Variable refresh : Credentials -> Outcome Credentials.
(** [InstalledAppFlow.from_client_secrets_file(CREDENTIALS_FILE, SCOPES).run_local_server(port=0)] *)
Variable run_local_server : Outcome Credentials.
(** [build(api, version, credentials=creds)] *)
Variable build : Credentials -> Outcome unit.

(** The credentials obtained when the stored ones are missing or not valid:
    a refresh when they are expired and carry a refresh token, the browser
    flow otherwise. *)
Definition renew (creds : option Credentials) : Outcome Credentials :=
  match creds with
  | Some c =>
    if cred_expired c && truthy (cred_refresh_token c) then refresh c
    else run_local_server
  | None => run_local_server
  end.

(** [def get_gmail_service()], [def get_calendar_service()] and
    [def get_people_service()], which differ in the file and API names only.
    [token_file] is the content of TOKEN_FILE when the file exists; the
    result pairs the content after the call with what the call returns.
    Writing the file is taken to succeed. *)
Definition get_service (token_file : option string) : option string * Outcome unit :=
  match match token_file with
        | Some content => c <- from_authorized_user_file content ;; Return (Some c)
        | None => Return None
        end with
  | Raise e => (token_file, Raise e)
  | Return creds =>
    match creds with
    | Some c =>
      if cred_valid c then (token_file, build c)
      else match renew creds with
           | Raise e => (token_file, Raise e)
           | Return c' => (Some (to_json c'), build c')
           end
    | None =>
      match renew creds with
      | Raise e => (token_file, Raise e)
      | Return c' => (Some (to_json c'), build c')
      end
    end
  end.

End CredentialFlow.

(** ** run_super.py *)

(** What the script prints at its end: the final response, nothing when the
    answer is empty, or the error of the run. *)
Inductive Printed : Type :=
| final_response (text : string)
| nothing
| execution_error (text : string).

Definition print_final (final_answer : string) : Printed :=
  match final_answer with
  | EmptyString => nothing
  | _ => final_response final_answer
  end.

(** [f"\nAn error occurred during execution: {e}"] *)
Definition execution_error_text (e : exn) : string :=
  String (ascii_of_nat 10) ("An error occurred during execution: " +:+ exn_str e).

(** The loop of run_super.py over the streamed events, the per-node debug
    output left aside: [final_answer] is the content of the last
    "supervisor" message whose [additional_kwargs] is empty. *)
Fixpoint run_super (r : Run) (final_answer : string) : option Printed :=
  match r with
  | Done _ => Some (print_final final_answer)
  | Crashed e => Some (execution_error (execution_error_text e))
  | Pending => None
  | Yield Action _ rest => run_super rest final_answer
  | Yield Agent value rest =>
    match last_message (messages value) with
    | Raise e => Some (execution_error (execution_error_text e))
    | Return m =>
      if no_additional_kwargs m then run_super rest (content m)
      else run_super rest final_answer
    end
  end.

(** ** The Action Step *)

(** The sources hand the tools to [ToolNode(tools)] of langgraph.prebuilt and
    register the result as the "action" node; the class itself is not part of
    the repository.  The definitions of this part follow sections 3 and 4.1-4.3
    of the specification. *)

(** Modelled from the spec: ActionRequest, "tool_name" and "arguments (mapping
    of parameter name to value)"; the tool executor that reads it is missing
    from the sources. *)
Record ActionRequest : Type := {
  tool_name : string;
  arguments_of : gmap string string
}.

(** Modelled from the spec: ActionResult, "tool_name, output on success, or
    failure_reason (text) on failure"; the tool executor that builds it is
    missing from the sources. *)
Inductive ActionResult : Type :=
| Succeeded (name : string) (output : PyVal)
| Failed (name : string) (failure_reason : string).

(** Modelled from the spec: ToolSpec, "name, description, parameter_schema
    (names, types, required/optional), invoke"; the sources declare tools with
    the [@tool] decorator of langchain_core, which is missing from them. *)
Record ToolSpec : Type := {
  name_of : string;
  description : string;
  parameter_schema : list (string * bool);
  invoke_tool : gmap string string -> Outcome PyVal
}.

(** Modelled from the spec: [resolve(name)] of the Tool Registry (4.1), the
    first tool registered under the name; [None] stands for UnknownToolError.
    The registry class is missing from the sources. *)
Definition resolve (registry : list ToolSpec) (name : string) : option ToolSpec :=
  find (fun spec => String.eqb (name_of spec) name) registry.

(** Modelled from the spec: validation of the arguments "against the tool's
    declared schema before execution" (3, 4.3): every required parameter is
    given and every given argument is declared.  The validator is missing from
    the sources. *)
Definition validate (schema : list (string * bool)) (args : gmap string string) : bool :=
  forallb (fun p => negb (snd p) || bool_decide (is_Some (args !! fst p))) schema
  && forallb (fun k => existsb (fun p => String.eqb (fst p) k) schema)
             (map fst (map_to_list args)).

(** Modelled from the spec: the failure texts of the Action Step.  The spec
    asks that an unknown tool's failure_reason "mention the tool name" and that
    a capability's exception yield a "descriptive failure_reason"; the wording
    is fixed here, the executor that words them being missing from the
    sources. *)
Definition unknown_tool_reason (name : string) : string :=
  "UnknownToolError: " +:+ name +:+ " is not a registered tool".
Definition invalid_arguments_reason (name : string) : string :=
  "ArgumentValidationError: arguments do not match the schema of " +:+ name.
Definition capability_failure_reason (e : exn) : string :=
  match e with
  | HttpError msg => "HttpError: " +:+ msg
  | Exception cls msg => cls +:+ ": " +:+ msg
  end.

(** Modelled from the spec: the Action Step (4.3), "resolves the tool by name
    (propagates UnknownToolError as a failure_reason-carrying ActionResult),
    validates arguments (ArgumentValidationError also captured as a failed
    ActionResult), invokes the tool's capability exactly once; any exception
    raised by the invoked capability is caught and converted to a failed
    ActionResult".  It stands for langgraph.prebuilt.ToolNode, missing from
    the sources. *)
Definition action_step (registry : list ToolSpec) (request : ActionRequest)
    : Outcome ActionResult :=
  match resolve registry (tool_name request) with
  | None => Return (Failed (tool_name request) (unknown_tool_reason (tool_name request)))
  | Some spec =>
    if validate (parameter_schema spec) (arguments_of request) then
      match invoke_tool spec (arguments_of request) with
      | Return output => Return (Succeeded (tool_name request) output)
      | Raise e => Return (Failed (tool_name request) (capability_failure_reason e))
      end
    else Return (Failed (tool_name request) (invalid_arguments_reason (tool_name request)))
  end.

(** The action request a message carries. *)
Definition request_of (m : BaseMessage) : option ActionRequest :=
  match additional_kwargs m !! "function_call" with
  | Some (FunctionCall name args) => Some {| tool_name := name; arguments_of := args |}
  | _ => None
  end.

Section ToolNode.

(** [str(value)] of a tool's return value, a Python builtin. *)
Variable py_str : PyVal -> string.
Variable registry : list ToolSpec.

(** Modelled from the spec: the output of the Action Step (4.3), "a
    tool_result Message appended to the Transcript, with action_ref matching
    the input request"; built by langgraph.prebuilt.ToolNode, missing from
    the sources. *)
Definition tool_result (ref : option string) (result : ActionResult) : BaseMessage :=
  {| type := tool;
     content := match result with
                | Succeeded _ output => py_str output
                | Failed _ failure_reason => failure_reason
                end;
     additional_kwargs := ∅;
     action_ref := ref |}.

(** Modelled from the spec: the "action" node, the Action Step run on the
    request of the last message of the transcript (4.3, 4.4); a last message
    that carries no well-formed request is answered as a failed result.  It
    stands for [ToolNode(tools)], missing from the sources. *)
Definition ToolNode (state : AgentState) : Outcome AgentState :=
  match last (messages state) with
  | Some m =>
    result <- match request_of m with
              | Some request => action_step registry request
              | None => Return (Failed "" (invalid_arguments_reason ""))
              end ;;
    Return {| messages := [tool_result (action_ref m) result] |}
  | None =>
    Return {| messages := [tool_result None (Failed "" (invalid_arguments_reason ""))] |}
  end.

End ToolNode.

(** The tools of the repository as registry entries: the parameters are those
    of the Python signatures. *)
Section Registries.

Variable get_gmail_service : Outcome unit.
Variable encode_message : string -> string -> string -> string.
Variable messages_send : string -> Outcome unit.
Variable messages_list : string -> Outcome (option (list MessageStub)).
Variable messages_get : string -> Outcome MessageData.
Variable get_calendar_service : Outcome unit.
Variable events_insert : CalendarEvent -> Outcome (option string).
Variable get_people_service : Outcome unit.
Variable connections_list : Outcome (option (list Person)).
Variable str_lower : string -> string.

Definition missing_argument (p : string) : exn :=
  Exception "TypeError" ("missing required argument: " +:+ p).

Definition send_email_tool : ToolSpec :=
  {| name_of := "send_email";
     description := "Sends a new email.";
     parameter_schema := [("to", true); ("subject", true); ("body", true)];
     invoke_tool := fun args =>
       match args !! "to", args !! "subject", args !! "body" with
       | Some to, Some subject, Some body =>
         text <- send_email get_gmail_service encode_message messages_send to subject body ;;
         Return (PStr text)
       | _, _, _ => Raise (missing_argument "to, subject, body")
       end |}.

Definition get_emails_tool : ToolSpec :=
  {| name_of := "get_emails";
     description := "Searches for emails using a query (e.g., 'from:jane@example.com is:unread').";
     parameter_schema := [("query", true)];
     invoke_tool := fun args =>
       match args !! "query" with
       | Some query => get_emails get_gmail_service messages_list messages_get query
       | None => Raise (missing_argument "query")
       end |}.

(** [attendees], a list of strings in Python, is passed here as one address
    or not at all. *)
Definition create_calendar_event_tool : ToolSpec :=
  {| name_of := "create_calendar_event";
     description := "Creates a new event on the primary Google Calendar.";
     parameter_schema := [("summary", true); ("start_time", true); ("end_time", true);
                          ("description", false); ("attendees", false)];
     invoke_tool := fun args =>
       match args !! "summary", args !! "start_time", args !! "end_time" with
       | Some summary, Some start_time, Some end_time =>
         text <- create_calendar_event get_calendar_service events_insert
                   summary start_time end_time (args !! "description")
                   ((fun a => [a]) <$> args !! "attendees") ;;
         Return (PStr text)
       | _, _, _ => Raise (missing_argument "summary, start_time, end_time")
       end |}.

Definition get_contacts_tool : ToolSpec :=
  {| name_of := "get_contacts";
     description := "Searches for contacts by name to find their email or phone number.";
     parameter_schema := [("query", true)];
     invoke_tool := fun args =>
       match args !! "query" with
       | Some query => get_contacts str_lower get_people_service connections_list query
       | None => Raise (missing_argument "query")
       end |}.

(** The tools of this development among those of the three Google agents. *)
Definition google_tools : list ToolSpec :=
  [send_email_tool; get_emails_tool; create_calendar_event_tool; get_contacts_tool].

End Registries.

(** A specialist as an entry of the supervisor's registry: one parameter,
    [query]; the description is the docstring of the function. *)
Definition specialist_tool (which : Specialist)
    (environ : gmap string string)
    (model_invoke : list BaseMessage -> Outcome BaseMessage)
    (SYSTEM_PROMPT : string) (tool_node : AgentState -> Outcome AgentState)
    (max_iterations : nat) : ToolSpec :=
  {| name_of := specialist_name which;
     description :=
       match which with
       | email_agent =>
         "Use this tool to manage emails (send, reply, get, label, draft, mark unread)."
       | contact_agent => "Use this tool to manage contacts (get, add, update)."
       | calendar_agent =>
         "Use this tool to manage calendar events (get, create, update, delete)."
       | content_creator_agent =>
         "Use this tool to create blog posts or other long-form content."
       | search_agent => "Use this tool to search the web for information."
       end;
     parameter_schema := [("query", true)];
     invoke_tool := fun args =>
       match args !! "query" with
       | Some query =>
         text <- run_specialist_within which environ model_invoke SYSTEM_PROMPT tool_node
                   max_iterations query ;;
         Return (PStr text)
       | None => Raise (missing_argument "query")
       end |}.

(** The names of the supervisor's tools: [tools = [run_email_agent, ...]] in
    SupervisorAgent.py. *)
Definition supervisor_tool_names : list string :=
  ["run_email_agent"; "run_contact_agent"; "run_calendar_agent";
   "run_content_creator_agent"; "run_search_agent"].

(** ** The chain of requests and results in a transcript *)

(** The message at position [j] is an action request with reference [ref]. *)
Definition request_at (ms : list BaseMessage) (j : nat) (ref : option string) : Prop :=
  exists r, ms !! j = Some r /\ has_function_call r = true /\ action_ref r = ref.

(** Every tool_result's reference resolves to exactly one preceding action
    request. *)
Definition valid_chain (ms : list BaseMessage) : Prop :=
  forall i m, ms !! i = Some m -> type m = tool ->
    exists j, (j < i /\ request_at ms j (action_ref m)) /\
              forall j', j' < i /\ request_at ms j' (action_ref m) -> j' = j.

(** The references of the action requests of a transcript, in order. *)
Definition request_refs (ms : list BaseMessage) : list (option string) :=
  map action_ref (List.filter has_function_call ms).

(** Every tool_result's reference resolves to a preceding action request. *)
Definition linked (ms : list BaseMessage) : Prop :=
  forall i m, ms !! i = Some m -> type m = tool ->
    exists j, j < i /\ request_at ms j (action_ref m).

(** What holds of a configuration of the loop: the transcript is linked, and
    in ACTING its last message is the request to serve. *)
Definition linked_invariant (c : Control * AgentState) : Prop :=
  linked (messages (snd c)) /\
  match fst c with
  | At Action => exists r, last (messages (snd c)) = Some r /\ has_function_call r = true
  | _ => True
  end.

(** ** Concrete collaborators, for the examples *)

(** A model reply that requests [name] with no arguments. *)
Definition request_message (name : string) (ref : option string) : BaseMessage :=
  {| type := ai; content := "";
     additional_kwargs := {[ "function_call" := FunctionCall name ∅ ]};
     action_ref := ref |}.

(** A model that answers every transcript directly. *)
Definition direct_model (ms : list BaseMessage) : Outcome BaseMessage :=
  Return (AIMessage "Weather is the state of the atmosphere at a place and time.").

(** A model that requests the search specialist at every turn. *)
Definition insistent_model (ms : list BaseMessage) : Outcome BaseMessage :=
  Return (request_message "run_search_agent" None).

(** A model that requests the calendar specialist once and answers when it
    sees the result. *)
Definition one_round_model (ms : list BaseMessage) : Outcome BaseMessage :=
  match last ms with
  | Some {| type := tool; content := c |} => Return (AIMessage c)
  | _ => Return (request_message "run_calendar_agent" (Some "call-1"))
  end.

(** An action node that answers every request with the same text. *)
Definition constant_tool_node (state : AgentState) : Outcome AgentState :=
  Return {| messages := [ {| type := tool; content := "No upcoming events found for today.";
                             additional_kwargs := ∅; action_ref := None |} ] |}.

(** A model whose final reply carries an entry in [additional_kwargs] that is
    no function call. *)
Definition annotated_model (ms : list BaseMessage) : Outcome BaseMessage :=
  Return {| type := ai; content := "You have no events today.";
            additional_kwargs := {[ "finish_reason" := Other "STOP" ]};
            action_ref := None |}.

(** A model whose call fails. *)
Definition failing_model (ms : list BaseMessage) : Outcome BaseMessage :=
  Raise (Exception "ResourceExhausted" "429 quota exceeded").

Definition example_environ : gmap string string := {[ "GEMINI_API_KEY" := "secret" ]}.

Definition example_request : ChatRequest :=
  {| query := "What's on my calendar today?";
     history := [ {[ "type" := "human"; "content" := "Hello" ]};
                  {[ "type" := "tool"; "content" := "internal" ]};
                  {[ "type" := "ai"; "content" := "Hi, how can I help?" ]};
                  {[ "content" := "untyped" ]} ] |}.

(** A constructor that takes a text as the content and refuses every other
    value with pydantic's error, as langchain's does for [None]. *)
Definition validating_message (t : MessageType) (c : Wire.Json) : Outcome BaseMessage :=
  match c with
  | Wire.JString s => Return (Wire.text_message t s)
  | _ => Raise (Exception "ValidationError" "content: Input should be a valid string")
  end.

(** A request whose one history entry is a human turn with [null] as
    content. *)
Definition null_content_request : Wire.ChatRequest :=
  {| Wire.query := "Hello";
     Wire.history := [ {[ "type" := Wire.JString "human"; "content" := Wire.JNull ]} ] |}.

(** A request with entries of other types holding values that are no texts. *)
Definition mixed_request : Wire.ChatRequest :=
  {| Wire.query := "What's on my calendar today?";
     Wire.history := [ {[ "type" := Wire.JString "human"; "content" := Wire.JString "Hello" ]};
                       {[ "type" := Wire.JString "tool"; "content" := Wire.JNull ]};
                       {[ "type" := Wire.JNumber "7"; "content" := Wire.JArray [] ]};
                       {[ "type" := Wire.JString "ai" ]};
                       {[ "content" := Wire.JBool true ]} ] |}.

(** The record [get_emails] builds for a search hit. *)
Definition email_entry (msg : MessageStub) (entry : PyVal) : Prop :=
  exists subject sender snip,
    entry = PDict [("id", PStr (id msg)); ("threadId", PStr (threadId msg));
                   ("subject", PStr subject); ("from", PStr sender);
                   ("snippet", PStr snip)].

(** A mailbox with seven hits for every query. *)
Definition seven_hits (query : string) : Outcome (option (list MessageStub)) :=
  Return (Some (map (fun i => {| id := i; threadId := "t" +:+ i |})
                    ["m1"; "m2"; "m3"; "m4"; "m5"; "m6"; "m7"])).

Definition plain_message (i : string) : Outcome MessageData :=
  Return {| payload_headers := [("From", "jane@example.com"); ("Subject", "Hello");
                                ("Subject", "Re: Hello")];
            snippet := "See you " +:+ i |}.

(** An address book. *)
Definition address_book : Outcome (option (list Person)) :=
  Return (Some [ {| names := Some [Some "Jane Doe"];
                    phoneNumbers := None;
                    emailAddresses := Some [Some "jane@example.com"] |};
                 {| names := Some [Some "Rahul Verma"];
                    phoneNumbers := Some [Some "+911234567890"];
                    emailAddresses := None |};
                 {| names := None; phoneNumbers := None; emailAddresses := None |} ]).

(** What the people API is seen to answer: the contacts, none when it raises. *)
Definition listed (connections_list : Outcome (option (list Person))) : list Person :=
  match connections_list with
  | Return connections => default [] connections
  | Raise _ => []
  end.

(** A registry whose tools answer with an empty text, one per name. *)
Definition stub_registry (names : list string) : list ToolSpec :=
  map (fun n => {| name_of := n; description := ""; parameter_schema := [("query", true)];
                   invoke_tool := fun _ => Return (PStr "") |}) names.

(** A mail provider whose send call is refused. *)
Definition refused_send (raw : string) : Outcome unit :=
  Raise (HttpError "<HttpError 403 Insufficient Permission>").

Definition plain_encode (to subject body : string) : string :=
  to +:+ subject +:+ body.

Definition example_google_tools : list ToolSpec :=
  google_tools (Return tt) plain_encode refused_send seven_hits plain_message
    (Return tt) (fun _ => Raise (Exception "TimeoutError" "timed out"))
    (Return tt) address_book lower.

Definition send_request : ActionRequest :=
  {| tool_name := "send_email";
     arguments_of := {[ "to" := "jane@example.com"; "subject" := "Reminder";
                        "body" := "See you at 3 PM." ]} |}.

(** A model that requests the calendar specialist when the transcript holds
    no request yet, and answers otherwise. *)
Definition cautious_model (ms : list BaseMessage) : Outcome BaseMessage :=
  if existsb has_function_call ms
  then Return (AIMessage "You have no events today.")
  else Return {| type := ai; content := "";
                 additional_kwargs :=
                   {[ "function_call" := FunctionCall "run_calendar_agent"
                                           {[ "query" := "today's events" ]} ]};
                 action_ref := Some "call-1" |}.

(** [str(value)] on the values of the examples. *)
Definition text_of (v : PyVal) : string :=
  match v with
  | PStr s => s
  | PNone => "None"
  | PList _ => "[...]"
  | PDict _ => "{...}"
  end.

(** A message whose Message-Id header is spelled with a small d. *)
Definition small_d_message (message_id : string) : Outcome OriginalMessage :=
  Return {| original_threadId := "t1";
            original_headers := [("From", "jane@example.com"); ("Subject", "Hello");
                                 ("Message-Id", "<abc@mail.example.com>")] |}.

(** A mailbox whose third hit cannot be fetched. *)
Definition third_fetch_fails (i : string) : Outcome MessageData :=
  if String.eqb i "m3" then Raise (HttpError "<HttpError 404 Not Found>")
  else plain_message i.

(** The labels of a mailbox. *)
Definition example_labels : Outcome (option (list Label)) :=
  Return (Some [ {| label_id := "Label_1"; label_name := "Urgent" |};
                 {| label_id := "Label_2"; label_name := "Review Later" |} ]).

(** A calendar clock and date parser for the examples: dates are their ISO
    texts, and only texts of ten characters parse. *)
Definition example_strptime (day : string) : Outcome string :=
  if Nat.eqb (String.length day) 10 then Return day
  else Raise (Exception "ValueError"
                ("time data '" +:+ day +:+ "' does not match format '%Y-%m-%d'")).

Definition example_next_day (d : string) : string := "2025-07-02".

(** A day with a meeting and an untitled event. *)
Definition untitled_day (timeMin timeMax : string) : Outcome (option (list CalendarItem)) :=
  Return (Some [ {| item_id := Some "e1"; item_summary := Some "Standup";
                    item_start := Some {[ "dateTime" := "2025-07-01T09:00:00+05:30" ]} |};
                 {| item_id := Some "e2"; item_summary := None;
                    item_start := Some {[ "date" := "2025-07-01" ]} |} ]).

(** A stored event with a time zone and a description. *)
Definition stored_event : EventResource :=
  {| event_id := Some "e1";
     event_summary := Some "Project Discussion";
     event_start := Some {[ "dateTime" := "2025-07-01T15:00:00"; "timeZone" := "Asia/Kolkata" ]};
     event_end := Some {[ "dateTime" := "2025-07-01T16:00:00"; "timeZone" := "Asia/Kolkata" ]};
     event_other := [("description", "Quarterly review")] |}.

(** [bool(person.get("names", []))]: the person has a names entry. *)
Definition has_names (person : Person) : bool :=
  match default [] (names person) with
  | [] => false
  | _ => true
  end.

(** A token file format for the examples: a letter for [valid], a letter for
    [expired], then the refresh token after "+", or "-" when there is none. *)
Definition example_to_json (c : Credentials) : string :=
  String (if cred_valid c then "V" else "v")
    (String (if cred_expired c then "E" else "e")
       match cred_refresh_token c with
       | Some r => String "+" r
       | None => "-"
       end)%char.

Definition example_from_file (content : string) : Outcome Credentials :=
  match content with
  | String v (String e (String sign r)) =>
    if Ascii.eqb sign "+" then
      Return {| cred_valid := Ascii.eqb v "V"; cred_expired := Ascii.eqb e "E";
                cred_refresh_token := Some r |}
    else if Ascii.eqb sign "-" && String.eqb r "" then
      Return {| cred_valid := Ascii.eqb v "V"; cred_expired := Ascii.eqb e "E";
                cred_refresh_token := None |}
    else Raise (Exception "ValueError" "Authorized user info was not in the expected format")
  | _ => Raise (Exception "ValueError" "Authorized user info was not in the expected format")
  end.

Definition example_refresh (c : Credentials) : Outcome Credentials :=
  Return {| cred_valid := true; cred_expired := false;
            cred_refresh_token := cred_refresh_token c |}.

Definition example_flow : Outcome Credentials :=
  Return {| cred_valid := true; cred_expired := false; cred_refresh_token := Some "r2" |}.

(** * Properties *)

(** ** The agent loop *)

Section AgentLoopFacts.

Variable SYSTEM_PROMPT : string.
Variable model_invoke : list BaseMessage -> Outcome BaseMessage.
Variable tool_node : AgentState -> Outcome AgentState.

Local Abbreviation call := (call_model SYSTEM_PROMPT model_invoke).
Local Abbreviation loop := (run SYSTEM_PROMPT model_invoke tool_node).
Local Abbreviation answers := (answers_after SYSTEM_PROMPT model_invoke tool_node).

Lemma call_model_inv state update :
  call state = Return update ->
  exists reply,
    model_invoke (SystemMessage SYSTEM_PROMPT :: messages state) = Return reply /\
    update = {| messages := [reply] |}.
Proof.
  unfold call_model, bind.
  destruct (model_invoke _) as [reply|e]; [|discriminate].
  intros [= <-]. by exists reply.
Qed.

Lemma should_continue_reply state reply :
  should_continue (apply_update state {| messages := [reply] |})
  = Return (has_function_call reply).
Proof.
  unfold should_continue, last_message, apply_update, reducer; simpl.
  by rewrite last_snoc.
Qed.

Lemma run_agent_unfold fuel state :
  loop (S fuel) Agent state =
  match model_invoke (SystemMessage SYSTEM_PROMPT :: messages state) with
  | Raise e => Crashed e
  | Return reply =>
    Yield Agent {| messages := [reply] |}
      (if has_function_call reply
       then loop fuel Action (apply_update state {| messages := [reply] |})
       else Done (apply_update state {| messages := [reply] |}))
  end.
Proof.
  simpl. unfold call_model, bind.
  destruct (model_invoke _) as [reply|e]; [|done].
  rewrite should_continue_reply. by destruct (has_function_call reply).
Qed.

Lemma run_alternates fuel : forall state, alternates state (loop fuel Agent state).
Proof.
  induction fuel as [fuel IH] using lt_wf_ind. intros state.
  destruct fuel as [|fuel]; [apply alt_pending|].
  rewrite run_agent_unfold.
  destruct (model_invoke _) as [reply|e]; [|apply alt_model_failed].
  destruct (has_function_call reply) eqn:Hfc; [|by apply alt_answer].
  destruct fuel as [|fuel]; [by apply alt_request_pending|].
  simpl. destruct (tool_node _) as [result|e]; [|by apply alt_request_failed].
  apply alt_request; [done|]. apply (IH fuel). lia.
Qed.

(** Once the fuel suffices the result no longer depends on it. *)
Lemma answers_after_run k : forall state,
  answers k state ->
  forall fuel, 2 * k + 1 <= fuel ->
  exists final,
    ending (loop fuel Agent state) = Done final /\
    should_continue final = Return false /\
    executions Action (loop fuel Agent state) = k /\
    executions Agent (loop fuel Agent state) = S k.
Proof.
  induction k as [|k IH]; intros state Hk fuel Hfuel.
  - destruct Hk as (update & Hcall & Hstop).
    destruct fuel as [|fuel]; [lia|]. simpl. rewrite Hcall, Hstop. simpl.
    by exists (apply_update state update).
  - destruct Hk as (update & result & Hcall & Hgo & Htool & Hrest).
    destruct fuel as [|[|fuel]]; [lia..|].
    destruct (IH _ Hrest fuel ltac:(lia)) as (final & Hend & Hstop & Hact & Hag).
    exists final. simpl. rewrite Hcall, Hgo. simpl. rewrite Htool. simpl.
    rewrite Hend, Hact, Hag. done.
Qed.

(** A run that reaches DONE does so because the model stopped requesting. *)
Lemma run_done_answers fuel : forall state final,
  ending (loop fuel Agent state) = Done final ->
  exists k, 2 * k + 1 <= fuel /\ answers k state.
Proof.
  induction fuel as [fuel IH] using lt_wf_ind. intros state final Hend.
  destruct fuel as [|fuel]; [discriminate|].
  simpl in Hend.
  destruct (call state) as [update|e] eqn:Hcall; [|discriminate].
  simpl in Hend.
  destruct (should_continue _) as [[|]|e] eqn:Hgo; [| |discriminate].
  - destruct fuel as [|fuel]; [discriminate|]. simpl in Hend.
    destruct (tool_node _) as [result|e] eqn:Htool; [|discriminate].
    simpl in Hend.
    destruct (IH fuel ltac:(lia) _ _ Hend) as (k & Hk & Hans).
    exists (S k). split; [lia|]. simpl. by exists update, result.
  - exists 0. split; [lia|]. simpl. by exists update.
Qed.

Lemma run_done_last fuel : forall state final,
  ending (loop fuel Agent state) = Done final ->
  should_continue final = Return false.
Proof.
  induction fuel as [fuel IH] using lt_wf_ind. intros state final Hend.
  destruct fuel as [|fuel]; [discriminate|].
  simpl in Hend.
  destruct (call state) as [update|e]; [|discriminate].
  simpl in Hend.
  destruct (should_continue _) as [[|]|e] eqn:Hgo; [| |discriminate].
  - destruct fuel as [|fuel]; [discriminate|]. simpl in Hend.
    destruct (tool_node _) as [result|e]; [|discriminate].
    simpl in Hend. apply (IH fuel ltac:(lia) _ _ Hend).
  - by injection Hend as <-.
Qed.

(** The scan of the streamed events ends as the run does, when no update is
    empty. *)
Lemma scan_events_ending fuel : forall node state acc,
  (forall st update, tool_node st = Return update -> messages update <> []) ->
  match ending (loop fuel node state) with
  | Done _ => exists text, scan_events (loop fuel node state) acc = Some (Return text)
  | Crashed e => scan_events (loop fuel node state) acc = Some (Raise e)
  | _ => scan_events (loop fuel node state) acc = None
  end.
Proof.
  induction fuel as [|fuel IH]; intros node state acc Hne; [done|].
  destruct node.
  - rewrite run_agent_unfold.
    destruct (model_invoke _) as [reply|e]; [|done].
    cbn [ending scan_events messages last_message last].
    assert (Hrest : forall acc',
      match ending (if has_function_call reply
                    then loop fuel Action (apply_update state {| messages := [reply] |})
                    else Done (apply_update state {| messages := [reply] |})) with
      | Done _ => exists text,
          scan_events (if has_function_call reply
                       then loop fuel Action (apply_update state {| messages := [reply] |})
                       else Done (apply_update state {| messages := [reply] |})) acc'
          = Some (Return text)
      | Crashed e =>
          scan_events (if has_function_call reply
                       then loop fuel Action (apply_update state {| messages := [reply] |})
                       else Done (apply_update state {| messages := [reply] |})) acc'
          = Some (Raise e)
      | _ =>
          scan_events (if has_function_call reply
                       then loop fuel Action (apply_update state {| messages := [reply] |})
                       else Done (apply_update state {| messages := [reply] |})) acc'
          = None
      end).
    { intros acc'. destruct (has_function_call reply); [by apply IH|].
      simpl. by exists acc'. }
    destruct (type reply); try apply Hrest;
      destruct (no_additional_kwargs reply); apply Hrest.
  - simpl. destruct (tool_node state) as [update|e] eqn:Htool; [|done].
    cbn [ending scan_events].
    pose proof (Hne _ _ Htool) as Hupdate.
    unfold last_message.
    destruct (last (messages update)) as [m|] eqn:Hlast.
    + destruct (type m); try (by apply IH);
        destruct (no_additional_kwargs m); by apply IH.
    + apply last_None in Hlast. done.
Qed.

End AgentLoopFacts.

(** C3: the loop alternates strictly.  In every run a reply with an action
    request is followed by one execution of the action node, whose result is
    appended before the next Reasoning Step, and a reply without one ends the
    run; in particular a direct answer ends the run in one step, with no
    execution of the action node, and the text read off the final state is
    the reply's. *)
Theorem loop_alternates_strictly
    (SYSTEM_PROMPT : string)
    (model_invoke : list BaseMessage -> Outcome BaseMessage)
    (tool_node : AgentState -> Outcome AgentState) :
  (forall fuel state,
     alternates state (run SYSTEM_PROMPT model_invoke tool_node fuel Agent state)) /\
  (forall fuel state reply result,
     model_invoke (SystemMessage SYSTEM_PROMPT :: messages state) = Return reply ->
     has_function_call reply = true ->
     tool_node {| messages := messages state ++ [reply] |} = Return result ->
     run SYSTEM_PROMPT model_invoke tool_node (S (S fuel)) Agent state =
     Yield Agent {| messages := [reply] |}
       (Yield Action result
          (run SYSTEM_PROMPT model_invoke tool_node fuel Agent
             {| messages := (messages state ++ [reply]) ++ messages result |}))) /\
  (forall fuel state reply,
     model_invoke (SystemMessage SYSTEM_PROMPT :: messages state) = Return reply ->
     has_function_call reply = false ->
     let r := stream SYSTEM_PROMPT model_invoke tool_node (S fuel) state in
     r = Yield Agent {| messages := [reply] |}
           (Done {| messages := messages state ++ [reply] |}) /\
     executions Action r = 0 /\
     exists final,
       invoke SYSTEM_PROMPT model_invoke tool_node (S fuel) state = Some (Return final) /\
       final_text final = Return (content reply)).
Proof.
  split; [|split].
  - intros fuel state. apply run_alternates.
  - intros fuel state reply result Hreply Hfc Htool.
    rewrite run_agent_unfold, Hreply, Hfc.
    unfold apply_update, reducer; simpl. by rewrite Htool.
  - intros fuel state reply Hreply Hfc r.
    assert (Hr : r = Yield Agent {| messages := [reply] |}
                       (Done {| messages := messages state ++ [reply] |})).
    { unfold r, stream. by rewrite run_agent_unfold, Hreply, Hfc. }
    split; [done|]. split; [by rewrite Hr|].
    exists {| messages := messages state ++ [reply] |}.
    unfold invoke. fold r. rewrite Hr. simpl. split; [done|].
    unfold final_text, last_message; simpl. by rewrite last_snoc.
Qed.

(** The scenario "simple query, no tools": the model answers directly. *)
Lemma loop_alternates_strictly_witness :
  let state := {| messages := [HumanMessage "What's the weather like conceptually?"] |} in
  let r := stream "" direct_model constant_tool_node 1 state in
  r = Yield Agent {| messages := [AIMessage "Weather is the state of the atmosphere at a place and time."] |}
        (Done {| messages := messages state
                   ++ [AIMessage "Weather is the state of the atmosphere at a place and time."] |}) /\
  executions Action r = 0 /\
  exists final,
    invoke "" direct_model constant_tool_node 1 state = Some (Return final) /\
    final_text final
    = Return (content (AIMessage "Weather is the state of the atmosphere at a place and time.")).
Proof.
  apply (proj2 (proj2 (loop_alternates_strictly "" direct_model constant_tool_node))).
  - reflexivity.
  - reflexivity.
Defined.

Lemma insistent_run_pending fuel : forall node state,
  ending (run "" insistent_model constant_tool_node fuel node state) = Pending.
Proof.
  induction fuel as [|fuel IH]; intros node state; [done|].
  destruct node.
  - rewrite run_agent_unfold. simpl. apply IH.
  - simpl. apply IH.
Qed.

(** ** The specialists as tools *)

(** C4, as stated, fails: no [run_*_agent] has a handler, so a failure of the
    model call inside the email specialist reaches the caller as an exception,
    and no amount of fuel makes the invocation return a text. *)
Lemma specialist_propagates_model_failure :
  run_specialist email_agent example_environ failing_model "" constant_tool_node 1
    "Send a reminder to jane@example.com"
  = Some (Raise (Exception "ResourceExhausted" "429 quota exceeded")) /\
  ~ exists fuel text,
      run_specialist email_agent example_environ failing_model "" constant_tool_node fuel
        "Send a reminder to jane@example.com" = Some (Return text).
Proof.
  split; [reflexivity|].
  intros (fuel & text & H). destruct fuel; discriminate.
Qed.

(** C4, amended: each of the five invocations returns a text whenever the
    specialist's run reaches DONE (the API key being set and no update of the
    action node being empty), and passes on unchanged the exception of a run
    that raises. *)
Theorem specialist_returns_text_when_done
    (which : Specialist) (environ : gmap string string)
    (model_invoke : list BaseMessage -> Outcome BaseMessage)
    (SYSTEM_PROMPT : string) (tool_node : AgentState -> Outcome AgentState)
    (fuel : nat) (query : string) :
  is_Some (environ !! "GEMINI_API_KEY") ->
  (forall st update, tool_node st = Return update -> messages update <> []) ->
  match invoke SYSTEM_PROMPT model_invoke tool_node fuel {| messages := [HumanMessage query] |} with
  | Some (Return _) =>
    exists text,
      run_specialist which environ model_invoke SYSTEM_PROMPT tool_node fuel query
      = Some (Return text)
  | Some (Raise e) =>
    run_specialist which environ model_invoke SYSTEM_PROMPT tool_node fuel query
    = Some (Raise e)
  | None =>
    run_specialist which environ model_invoke SYSTEM_PROMPT tool_node fuel query = None
  end.
Proof.
  intros [key Hkey] Hne.
  assert (Hinvoke : forall final,
    invoke SYSTEM_PROMPT model_invoke tool_node fuel {| messages := [HumanMessage query] |}
    = Some (Return final) ->
    exists text, final_text final = Return text).
  { intros final Hfinal. unfold invoke, stream in Hfinal.
    destruct (ending _) as [final'| | |] eqn:Hend; try discriminate.
    injection Hfinal as ->.
    apply run_done_last in Hend. unfold should_continue, bind in Hend.
    unfold final_text, bind.
    destruct (last_message (messages final)) as [m|e]; [|discriminate].
    by exists (content m). }
  assert (Hstream :
    match invoke SYSTEM_PROMPT model_invoke tool_node fuel {| messages := [HumanMessage query] |} with
    | Some (Return _) =>
      exists text,
        run_stream_agent environ model_invoke SYSTEM_PROMPT tool_node fuel query
        = Some (Return text)
    | Some (Raise e) =>
      run_stream_agent environ model_invoke SYSTEM_PROMPT tool_node fuel query = Some (Raise e)
    | None => run_stream_agent environ model_invoke SYSTEM_PROMPT tool_node fuel query = None
    end).
  { unfold run_stream_agent, environ_get, invoke, stream. rewrite Hkey.
    pose proof (scan_events_ending SYSTEM_PROMPT model_invoke tool_node fuel Agent
                  {| messages := [HumanMessage query] |} "" Hne) as Hscan.
    by destruct (ending _). }
  assert (Hplain :
    match invoke SYSTEM_PROMPT model_invoke tool_node fuel {| messages := [HumanMessage query] |} with
    | Some (Return _) =>
      exists text,
        run_invoke_agent environ model_invoke SYSTEM_PROMPT tool_node fuel query
        = Some (Return text)
    | Some (Raise e) =>
      run_invoke_agent environ model_invoke SYSTEM_PROMPT tool_node fuel query = Some (Raise e)
    | None => run_invoke_agent environ model_invoke SYSTEM_PROMPT tool_node fuel query = None
    end).
  { unfold run_invoke_agent, create_and_invoke, environ_get. rewrite Hkey.
    destruct (invoke _ _ _ _ _) as [[final|e]|] eqn:Hinv; [|done..].
    destruct (Hinvoke final eq_refl) as [text Htext]. exists text. by rewrite Htext. }
  (* the search for a key 'action' in [items] finds none: the email agent
     computes as the contact and calendar agents do *)
  destruct which; simpl; first [exact Hplain | exact Hstream].
Qed.

Lemma specialist_returns_text_when_done_witness :
  exists text,
    run_specialist calendar_agent example_environ one_round_model "" constant_tool_node 3
      "What's on my calendar today?" = Some (Return text).
Proof.
  apply (specialist_returns_text_when_done calendar_agent example_environ one_round_model ""
           constant_tool_node 3 "What's on my calendar today?").
  - by eexists.
  - intros st update [= <-]. discriminate.
Defined.

(** ** The request interface *)

Lemma reconstruct_fold (hist : list (gmap string string)) : forall acc,
  foldl reconstruct_step acc hist
  = (acc ++ map entry_message (List.filter is_human_or_ai hist))%list.
Proof.
  induction hist as [|msg hist IH]; intros acc; simpl.
  - by rewrite app_nil_r.
  - rewrite IH. unfold reconstruct_step, is_human_or_ai, entry_message.
    destruct (bool_decide (msg !! "type" = Some "human")) eqn:Hh; simpl.
    + rewrite Hh. by rewrite <- app_assoc.
    + destruct (bool_decide (msg !! "type" = Some "ai")); simpl; [|done].
      rewrite Hh. by rewrite <- app_assoc.
Qed.

(** On a text-valued history the messages are the human and ai entries, in
    their order, then the query as a human message. *)
Lemma text_history_messages (chat_request : ChatRequest) :
  reconstruct_messages chat_request = spec_messages chat_request.
Proof.
  unfold reconstruct_messages, spec_messages. by rewrite reconstruct_fold.
Qed.

(** An example with a tool entry and an entry without a type. *)
Example history_example :
  reconstruct_messages example_request
  = [HumanMessage "Hello"; AIMessage "Hi, how can I help?";
     HumanMessage "What's on my calendar today?"].
Proof. reflexivity. Qed.

Section WireFacts.

Variable make_message : MessageType -> Wire.Json -> Outcome BaseMessage.

Lemma wire_entry_messages_app (l1 l2 : list (gmap string Wire.Json)) :
  Wire.entry_messages make_message (l1 ++ l2)
  = (ms1 <- Wire.entry_messages make_message l1 ;;
     ms2 <- Wire.entry_messages make_message l2 ;; Return (ms1 ++ ms2)%list).
Proof.
  induction l1 as [|msg l1 IH]; simpl.
  - by destruct (Wire.entry_messages make_message l2).
  - destruct (Wire.entry_message make_message msg); simpl; [|done].
    rewrite IH. destruct (Wire.entry_messages make_message l1); simpl; [|done].
    by destruct (Wire.entry_messages make_message l2).
Qed.

Lemma wire_reconstruct_loop (hist : list (gmap string Wire.Json)) : forall acc,
  Wire.reconstruct_loop make_message acc hist
  = (kept <- Wire.entry_messages make_message (List.filter Wire.is_human_or_ai hist) ;;
     Return (acc ++ kept)%list).
Proof.
  induction hist as [|msg hist IH]; intros acc; simpl.
  - by rewrite app_nil_r.
  - unfold Wire.reconstruct_step, Wire.is_human_or_ai.
    destruct (Wire.type_is msg "human") eqn:Hh; simpl.
    + unfold Wire.entry_message. rewrite Hh.
      destruct (make_message human (Wire.content_of msg)) as [m|e]; simpl; [|done].
      rewrite IH.
      destruct (Wire.entry_messages make_message _); simpl; [|done].
      by rewrite <- app_assoc.
    + destruct (Wire.type_is msg "ai") eqn:Ha; simpl; [|apply IH].
      unfold Wire.entry_message. rewrite Hh.
      destruct (make_message ai (Wire.content_of msg)) as [m|e]; simpl; [|done].
      rewrite IH.
      destruct (Wire.entry_messages make_message _); simpl; [|done].
      by rewrite <- app_assoc.
Qed.

Lemma wire_reconstruct_messages (chat_request : Wire.ChatRequest) :
  Wire.reconstruct_messages make_message chat_request
  = (kept <- Wire.entry_messages make_message
               (List.filter Wire.is_human_or_ai (Wire.history chat_request)) ;;
     Return (kept ++ [HumanMessage (Wire.query chat_request)])%list).
Proof.
  unfold Wire.reconstruct_messages. rewrite wire_reconstruct_loop.
  by destruct (Wire.entry_messages make_message _).
Qed.

(** The messages of entries whose constructors all return. *)
Lemma wire_entry_messages_built (entries : list (gmap string Wire.Json))
    (f : gmap string Wire.Json -> BaseMessage) :
  Forall (fun msg => Wire.entry_message make_message msg = Return (f msg)) entries ->
  Wire.entry_messages make_message entries = Return (map f entries).
Proof.
  induction 1 as [|msg entries Hmsg _ IH]; simpl; [done|].
  by rewrite Hmsg, IH.
Qed.

Lemma wire_entry_messages_plain (entries : list (gmap string Wire.Json)) :
  Wire.constructs_plain make_message ->
  forall ms, Wire.entry_messages make_message entries = Return ms ->
    length ms = length entries /\
    Forall (fun m => (type m = human \/ type m = ai) /\ additional_kwargs m = ∅) ms.
Proof.
  intros Hplain. induction entries as [|msg entries IH]; intros ms; simpl.
  - intros [= <-]. by split.
  - unfold Wire.entry_message at 1.
    destruct (make_message _ _) as [m|e] eqn:Hm; simpl; [|done].
    destruct (Wire.entry_messages make_message entries) as [ms'|e]; simpl; [|done].
    intros [= <-]. destruct (IH ms' eq_refl) as [Hlen Hall].
    split; [simpl; by rewrite Hlen|].
    apply Forall_cons. split; [|done].
    destruct (Hplain _ _ _ Hm) as [Ht Hk]. split; [|done].
    rewrite Ht. destruct (Wire.type_is msg "human"); auto.
Qed.

End WireFacts.

(** The text-valued model is the model of [Wire] on the requests whose
    entries hold texts. *)
Lemma as_wire_type_is (msg : gmap string string) (name : string) :
  Wire.type_is (Wire.JString <$> msg) name = bool_decide (msg !! "type" = Some name).
Proof.
  unfold Wire.type_is. rewrite lookup_fmap.
  destruct (msg !! "type") as [t|]; simpl.
  - apply bool_decide_ext. split; [by intros ->|by intros [= ->]].
  - done.
Qed.

Lemma as_wire_content_of (msg : gmap string string) :
  Wire.content_of (Wire.JString <$> msg) = Wire.JString (default "" (msg !! "content")).
Proof. unfold Wire.content_of. rewrite lookup_fmap. by destruct (msg !! "content"). Qed.

Lemma as_wire_reconstruct_loop
    (make_message : MessageType -> Wire.Json -> Outcome BaseMessage)
    (hist : list (gmap string string)) :
  (forall t s, make_message t (Wire.JString s) = Return (Wire.text_message t s)) ->
  forall acc,
    Wire.reconstruct_loop make_message acc (map (fmap Wire.JString) hist)
    = Return (foldl reconstruct_step acc hist).
Proof.
  intros Htext. induction hist as [|msg hist IH]; intros acc; simpl; [done|].
  unfold Wire.reconstruct_step, reconstruct_step.
  rewrite !as_wire_type_is, as_wire_content_of, !Htext.
  destruct (bool_decide (msg !! "type" = Some "human")); simpl; [apply IH|].
  destruct (bool_decide (msg !! "type" = Some "ai")); simpl; apply IH.
Qed.

Lemma as_wire_reconstruct_messages
    (make_message : MessageType -> Wire.Json -> Outcome BaseMessage)
    (chat_request : ChatRequest) :
  (forall t s, make_message t (Wire.JString s) = Return (Wire.text_message t s)) ->
  Wire.reconstruct_messages make_message (as_wire chat_request)
  = Return (reconstruct_messages chat_request).
Proof.
  intros Htext. unfold Wire.reconstruct_messages, reconstruct_messages. simpl.
  by rewrite as_wire_reconstruct_loop.
Qed.

Lemma as_wire_invoke_agent
    (make_message : MessageType -> Wire.Json -> Outcome BaseMessage)
    (SUPERVISOR_SYSTEM_PROMPT : string)
    (model_invoke : list BaseMessage -> Outcome BaseMessage)
    (tool_node : AgentState -> Outcome AgentState)
    (fuel : nat) (chat_request : ChatRequest) :
  (forall t s, make_message t (Wire.JString s) = Return (Wire.text_message t s)) ->
  Wire.invoke_agent make_message SUPERVISOR_SYSTEM_PROMPT model_invoke tool_node fuel
    (as_wire chat_request)
  = Return (invoke_agent SUPERVISOR_SYSTEM_PROMPT model_invoke tool_node fuel chat_request).
Proof.
  intros Htext. unfold Wire.invoke_agent. by rewrite as_wire_reconstruct_messages.
Qed.

(** C9, as stated, fails on a history the request model accepts: a human
    entry whose content is [null] makes the message constructor raise, so the
    request ends with that exception and no sequence is handed to the
    supervisor. *)
Lemma history_with_null_content_raises :
  Wire.is_human_or_ai <$> Wire.history null_content_request = [true] /\
  Wire.reconstruct_messages validating_message null_content_request
  = Raise (Exception "ValidationError" "content: Input should be a valid string") /\
  forall SUPERVISOR_SYSTEM_PROMPT model_invoke tool_node fuel,
    Wire.invoke_agent validating_message SUPERVISOR_SYSTEM_PROMPT model_invoke tool_node fuel
      null_content_request
    = Raise (Exception "ValidationError" "content: Input should be a valid string").
Proof. split; [reflexivity|]. split; [reflexivity|]. intros. reflexivity. Qed.

(** C9, amended: the reconstruction builds the messages of the human and ai
    entries of the history, in their order, and appends the query as a human
    message; the first constructor that raises ends it with its exception.
    An entry of any other type (or of none) is dropped whatever it holds.
    When the content of every human and ai entry is a text or missing, and
    the constructors take texts, the sequence handed to the supervisor is
    exactly these entries as messages, then the query.  When the constructor
    raises on a human or ai entry, and on none before it, the request ends
    with that exception and nothing is handed to the supervisor. *)
Theorem history_keeps_human_and_ai_texts
    (make_message : MessageType -> Wire.Json -> Outcome BaseMessage)
    (chat_request : Wire.ChatRequest) :
  Wire.reconstruct_messages make_message chat_request
  = (kept <- Wire.entry_messages make_message
               (List.filter Wire.is_human_or_ai (Wire.history chat_request)) ;;
     Return (kept ++ [HumanMessage (Wire.query chat_request)])%list) /\
  (forall before entry after,
     Wire.history chat_request = (before ++ entry :: after)%list ->
     Wire.type_is entry "human" = false ->
     Wire.type_is entry "ai" = false ->
     Wire.reconstruct_messages make_message chat_request
     = Wire.reconstruct_messages make_message
         {| Wire.query := Wire.query chat_request;
            Wire.history := (before ++ after)%list |}) /\
  ((forall t s, make_message t (Wire.JString s) = Return (Wire.text_message t s)) ->
   Forall (fun msg => Wire.is_human_or_ai msg = true -> Wire.has_text_content msg)
          (Wire.history chat_request) ->
   Wire.reconstruct_messages make_message chat_request
   = Return (map Wire.text_of_entry
               (List.filter Wire.is_human_or_ai (Wire.history chat_request))
             ++ [HumanMessage (Wire.query chat_request)])%list) /\
  (forall before entry after e,
     Wire.history chat_request = (before ++ entry :: after)%list ->
     Forall (fun msg => Wire.is_human_or_ai msg = true ->
                        returns (Wire.entry_message make_message msg)) before ->
     Wire.is_human_or_ai entry = true ->
     Wire.entry_message make_message entry = Raise e ->
     Wire.reconstruct_messages make_message chat_request = Raise e /\
     forall SUPERVISOR_SYSTEM_PROMPT model_invoke tool_node fuel,
       Wire.invoke_agent make_message SUPERVISOR_SYSTEM_PROMPT model_invoke tool_node fuel
         chat_request = Raise e).
Proof.
  split; [apply wire_reconstruct_messages|]. split; [|split].
  - intros before entry after Hhist Hh Ha.
    rewrite !wire_reconstruct_messages, Hhist. simpl.
    rewrite !List.filter_app. simpl.
    unfold Wire.is_human_or_ai at 2. by rewrite Hh, Ha.
  - intros Htext Hall. rewrite wire_reconstruct_messages.
    rewrite (wire_entry_messages_built make_message _ Wire.text_of_entry); [done|].
    apply Forall_forall. intros msg Hin.
    apply list_elem_of_In, List.filter_In in Hin as [Hin Hkept].
    rewrite Forall_forall in Hall.
    destruct (Hall msg (proj2 (list_elem_of_In _ _) Hin) Hkept) as [s Hs].
    unfold Wire.entry_message, Wire.text_of_entry. by rewrite Hs, Htext.
  - intros before entry after e Hhist Hbefore Hkept Hraise.
    assert (Hrec : Wire.reconstruct_messages make_message chat_request = Raise e).
    { rewrite wire_reconstruct_messages, Hhist, List.filter_app. simpl. rewrite Hkept.
      rewrite wire_entry_messages_app. simpl. rewrite Hraise. simpl.
      assert (Hret : returns (Wire.entry_messages make_message
                                (List.filter Wire.is_human_or_ai before))).
      { clear Hhist. induction Hbefore as [|msg before Hmsg _ IH]; simpl; [by eexists|].
        destruct (Wire.is_human_or_ai msg) eqn:Hk; [|exact IH]. simpl.
        destruct (Hmsg eq_refl) as [m ->]. destruct IH as [ms ->]. by eexists. }
      by destruct Hret as [ms ->]. }
    split; [exact Hrec|]. intros. unfold Wire.invoke_agent. by rewrite Hrec.
Qed.

(** The entries that are no human or ai turns of the example hold [null], an
    array and a truth value; the ai entry has no content. *)
Lemma history_keeps_human_and_ai_texts_witness :
  Wire.reconstruct_messages validating_message mixed_request
  = Return [HumanMessage "Hello"; AIMessage ""; HumanMessage "What's on my calendar today?"] /\
  Wire.reconstruct_messages validating_message null_content_request
  = Raise (Exception "ValidationError" "content: Input should be a valid string").
Proof.
  split.
  - apply (proj1 (proj2 (proj2 (history_keeps_human_and_ai_texts validating_message
                                  mixed_request)))).
    + reflexivity.
    + repeat constructor; intros Hkept; try discriminate Hkept; by eexists.
  - apply (proj2 (proj2 (proj2 (history_keeps_human_and_ai_texts validating_message
                                  null_content_request))) [] _ [] _ eq_refl).
    + constructor.
    + reflexivity.
    + reflexivity.
Defined.

(** The stream carries at most one event. *)
Lemma event_stream_at_most_one (r : Run) : forall events,
  event_stream r = Some events -> length events <= 1.
Proof.
  induction r as [final|e| |key value rest IH]; intros events; simpl.
  - intros [= <-]. simpl. lia.
  - intros [= <-]. simpl. lia.
  - discriminate.
  - destruct key; [|apply IH].
    destruct (last_message _) as [m|e]; [|intros [= <-]; simpl; lia].
    destruct (no_additional_kwargs m); [intros [= <-]; simpl; lia|apply IH].
Qed.

(** C7, at the failing input: the supervisor's final reply carries no function
    call, so the workflow ends, but its [additional_kwargs] is not empty, so
    [event_stream] sends neither a content nor an error event: the response
    stream ends with no event at all. *)
Theorem event_stream_silent_end :
  stream "" annotated_model constant_tool_node 1
    {| messages := reconstruct_messages example_request |}
  = Yield Agent
      {| messages := [ {| type := ai; content := "You have no events today.";
                          additional_kwargs := {[ "finish_reason" := Other "STOP" ]};
                          action_ref := None |} ] |}
      (Done {| messages := reconstruct_messages example_request
                 ++ [ {| type := ai; content := "You have no events today.";
                         additional_kwargs := {[ "finish_reason" := Other "STOP" ]};
                         action_ref := None |} ] |}) /\
  invoke_agent "" annotated_model constant_tool_node 1 example_request = Some [].
Proof. split; reflexivity. Qed.

(** ** The tools *)

Section EmailFacts.

Variable get_gmail_service : Outcome unit.
Variable messages_list : string -> Outcome (option (list MessageStub)).
Variable messages_get : string -> Outcome MessageData.

Lemma get_emails_loop_returns (msgs : list MessageStub) : forall emails,
  Forall (fun msg => returns (messages_get (id msg))) msgs ->
  exists new,
    get_emails_loop messages_get msgs emails = Return (emails ++ new)%list /\
    Forall2 email_entry msgs new.
Proof.
  induction msgs as [|msg msgs IH]; intros emails Hget; simpl.
  - exists []. by rewrite app_nil_r.
  - apply Forall_cons in Hget as [[data Hdata] Hrest].
    rewrite Hdata. simpl.
    destruct (IH (emails ++ [PDict [("id", PStr (id msg));
                         ("threadId", PStr (threadId msg));
                         ("subject", PStr (default "" (headers_dict (payload_headers data) !! "Subject")));
                         ("from", PStr (default "" (headers_dict (payload_headers data) !! "From")));
                         ("snippet", PStr (snippet data))]])%list Hrest)
      as (new & Hloop & Hnew).
    eexists (_ :: new). rewrite Hloop, <- app_assoc. split; [done|].
    constructor; [|done]. by eexists _, _, _.
Qed.

Lemma email_entry_fields msg entry :
  email_entry msg entry ->
  fields entry = Some ["id"; "threadId"; "subject"; "from"; "snippet"].
Proof. by intros (? & ? & ? & ->). Qed.

End EmailFacts.

(** C8: when the search has hits and the messages can be fetched, [get_emails]
    returns a list of at most five records, one for each of the first five
    hits and each with the fields id, threadId, subject, from and snippet;
    when it has none, it returns the text "No emails found for that query.". *)
Theorem get_emails_result
    (get_gmail_service : Outcome unit)
    (messages_list : string -> Outcome (option (list MessageStub)))
    (messages_get : string -> Outcome MessageData)
    (query : string) (results : option (list MessageStub)) :
  get_gmail_service = Return tt ->
  messages_list query = Return results ->
  (default [] results = [] ->
   get_emails get_gmail_service messages_list messages_get query
   = Return (PStr "No emails found for that query.")) /\
  (default [] results <> [] ->
   Forall (fun msg => returns (messages_get (id msg))) (take 5 (default [] results)) ->
   exists emails,
     get_emails get_gmail_service messages_list messages_get query = Return (PList emails) /\
     1 <= length emails <= 5 /\
     length emails = min 5 (length (default [] results)) /\
     Forall2 email_entry (take 5 (default [] results)) emails /\
     Forall (fun entry => fields entry = Some ["id"; "threadId"; "subject"; "from"; "snippet"])
            emails).
Proof.
  intros Hservice Hlist. unfold get_emails. rewrite Hservice, Hlist. cbn [bind].
  split.
  - by intros ->.
  - intros Hne Hget.
    destruct (get_emails_loop_returns messages_get _ [] Hget) as (emails & Hloop & Hentries).
    exists emails.
    destruct (default [] results) as [|msg msgs] eqn:Hmsgs; [done|].
    rewrite Hloop. split; [reflexivity|].
    pose proof (Forall2_length _ _ _ Hentries) as Hlen.
    rewrite length_take in Hlen.
    assert (Hpos : 1 <= length (msg :: msgs)) by (simpl; lia).
    split; [lia|]. split; [lia|]. split; [done|].
    clear -Hentries. induction Hentries; constructor; eauto using email_entry_fields.
Qed.

Lemma get_emails_result_witness :
  exists emails,
    get_emails (Return tt) seven_hits plain_message "from:jane@example.com"
    = Return (PList emails) /\
    1 <= length emails <= 5 /\
    length emails = min 5 7 /\
    Forall2 email_entry
      (take 5 (map (fun i => {| id := i; threadId := "t" +:+ i |})
                   ["m1"; "m2"; "m3"; "m4"; "m5"; "m6"; "m7"])) emails /\
    Forall (fun entry => fields entry = Some ["id"; "threadId"; "subject"; "from"; "snippet"])
           emails.
Proof.
  apply (proj2 (get_emails_result (Return tt) seven_hits plain_message
                  "from:jane@example.com" _ eq_refl eq_refl)).
  - discriminate.
  - simpl. repeat constructor; by eexists.
Defined.

(** The later of two headers of one name is the one reported. *)
Example get_emails_example :
  get_emails (Return tt)
    (fun _ => Return (Some [ {| id := "m1"; threadId := "t1" |} ])) plain_message "hello"
  = Return (PList [PDict [("id", PStr "m1"); ("threadId", PStr "t1");
                          ("subject", PStr "Re: Hello"); ("from", PStr "jane@example.com");
                          ("snippet", PStr "See you m1")]]).
Proof. reflexivity. Qed.

Lemma prefix_begins_with (s : string) : forall t,
  String.prefix s t = true <-> begins_with s t.
Proof.
  induction s as [|c s IH]; intros [|d t]; simpl.
  - split; [|done]. intros _. by exists "".
  - split; [|done]. intros _. by exists (String d t).
  - split; [done|]. intros [b Hb]. discriminate.
  - destruct (ascii_dec c d) as [<-|Hne].
    + rewrite IH. split; intros [b Hb]; exists b.
      * by rewrite Hb.
      * by injection Hb.
    + split; [done|]. intros [b Hb]. injection Hb as <- _. done.
Qed.

(** The test [contains] decides Python's [s in t]. *)
Lemma contains_mentions (s t : string) : contains s t = true <-> mentions s t.
Proof.
  split.
  - induction t as [|c t IH]; cbn [contains]; rewrite orb_true_iff.
    + intros [Hp|]; [|done]. apply prefix_begins_with in Hp as [b Hb]. by exists "", b.
    + intros [Hp|Hc].
      * apply prefix_begins_with in Hp as [b Hb]. by exists "", b.
      * destruct (IH Hc) as (a & b & ->). by exists (String c a), b.
  - intros (a & b & ->). induction a as [|c a IH].
    + assert (Hp : String.prefix s (s +:+ b) = true) by (apply prefix_begins_with; by exists b).
      change ("" +:+ s +:+ b) with (s +:+ b).
      destruct (s +:+ b); cbn [contains]; by rewrite Hp.
    + change (String c a +:+ s +:+ b) with (String c (a +:+ s +:+ b)).
      cbn [contains]. rewrite IH. apply orb_true_r.
Qed.

(** A person matches when one of the display names contains the query, both
    in lower case. *)
Lemma person_matches_spec (str_lower : string -> string) (query : string) (person : Person) :
  person_matches str_lower (str_lower query) person = true <->
  exists n, In n (default [] (names person)) /\
            mentions (str_lower query) (str_lower (default "" n)).
Proof.
  unfold person_matches. rewrite existsb_exists.
  split; intros (n & Hin & Hn); exists n; (split; [done|]); by apply contains_mentions.
Qed.

Section ContactFacts.

Lemma contact_record_matches str_lower lower_query person :
  person_matches str_lower lower_query person = true ->
  contact_record person = Return (record_of person).
Proof.
  unfold person_matches, contact_record, first_display_name, record_of.
  destruct (names person) as [[|n ns]|]; simpl; [discriminate| |discriminate].
  done.
Qed.

Lemma get_contacts_loop_filter str_lower lower_query (all_contacts : list Person) :
  forall found,
  get_contacts_loop str_lower lower_query all_contacts found
  = Return (found ++ map record_of
                       (List.filter (person_matches str_lower lower_query) all_contacts))%list.
Proof.
  induction all_contacts as [|person rest IH]; intros found; simpl.
  - by rewrite app_nil_r.
  - destruct (person_matches str_lower lower_query person) eqn:Hmatch.
    + rewrite (contact_record_matches _ _ _ Hmatch). simpl.
      by rewrite IH, <- app_assoc.
    + apply IH.
Qed.

End ContactFacts.

(** C10, as stated, fails: the handler of [get_contacts] is [except HttpError],
    so a failure of another class in the listing call (here a timeout of the
    transport) leaves the function as an exception. *)
Lemma get_contacts_raises_on_timeout :
  get_contacts lower (Return tt)
    (Raise (Exception "TimeoutError" "The read operation timed out")) "jane"
  = Raise (Exception "TimeoutError" "The read operation timed out").
Proof. reflexivity. Qed.

(** C10, amended: when the session is obtained and the listing call returns or
    raises an HttpError, [get_contacts] returns one of three shapes: the
    non-empty list of records of the contacts one of whose display names
    contains the query, letter case ignored; the text "No contacts found
    matching that query." when there is none; a text beginning "An error
    occurred:" for the HttpError.  Letter case is ignored as [str.lower]
    does it, whatever that function is. *)
Theorem get_contacts_shapes
    (str_lower : string -> string)
    (get_people_service : Outcome unit)
    (connections_list : Outcome (option (list Person)))
    (query : string) :
  get_people_service = Return tt ->
  (forall e, connections_list = Raise e -> is_HttpError e = true) ->
  (exists v,
     get_contacts str_lower get_people_service connections_list query = Return v /\
     contacts_shape str_lower query (listed connections_list) v) /\
  (forall connections, connections_list = Return connections ->
     get_contacts str_lower get_people_service connections_list query
     = Return match List.filter (person_matches str_lower (str_lower query))
                      (default [] connections) with
              | [] => PStr "No contacts found matching that query."
              | found => PList (map record_of found)
              end) /\
  (forall msg, connections_list = Raise (HttpError msg) ->
     get_contacts str_lower get_people_service connections_list query
     = Return (PStr ("An error occurred: " +:+ msg))) /\
  (forall person,
     person_matches str_lower (str_lower query) person = true <->
     exists n, In n (default [] (names person)) /\
               mentions (str_lower query) (str_lower (default "" n))).
Proof.
  intros Hservice Hhttp.
  assert (Hret : forall connections, connections_list = Return connections ->
     get_contacts str_lower get_people_service connections_list query
     = Return match List.filter (person_matches str_lower (str_lower query))
                      (default [] connections) with
              | [] => PStr "No contacts found matching that query."
              | found => PList (map record_of found)
              end).
  { intros connections Hlist. unfold get_contacts. rewrite Hservice, Hlist. simpl.
    rewrite get_contacts_loop_filter. simpl.
    by destruct (List.filter _ _). }
  assert (Herr : forall msg, connections_list = Raise (HttpError msg) ->
     get_contacts str_lower get_people_service connections_list query
     = Return (PStr ("An error occurred: " +:+ msg))).
  { intros msg Hlist. unfold get_contacts. by rewrite Hservice, Hlist. }
  split; [|split; [done|split; [done|intros person; apply person_matches_spec]]].
  destruct connections_list as [connections|e] eqn:Hlist.
  - pose proof (Hret connections eq_refl) as Hv.
    change (listed (Return connections)) with (default [] connections).
    destruct (List.filter (person_matches str_lower (str_lower query)) (default [] connections))
      as [|p found] eqn:Hfound.
    + eexists. split; [exact Hv|]. by apply shape_none.
    + eexists. split; [exact Hv|].
      rewrite <- Hfound. apply shape_found. by rewrite Hfound.
  - specialize (Hhttp e eq_refl). destruct e as [msg|cls msg]; [|discriminate].
    eexists. split; [by apply Herr|]. apply shape_error. by eexists.
Qed.

Lemma get_contacts_shapes_witness :
  get_contacts lower (Return tt) address_book "JANE"
  = Return (PList [PDict [("name", PStr "Jane Doe"); ("phones", PList []);
                          ("emails", PList [PStr "jane@example.com"])]]).
Proof.
  apply (proj1 (proj2 (get_contacts_shapes lower (Return tt) address_book "JANE" eq_refl
                         ltac:(discriminate))) _ eq_refl).
Defined.

(** ** The Action Step *)

Lemma resolve_absent (registry : list ToolSpec) (name : string) :
  ~ In name (map name_of registry) -> resolve registry name = None.
Proof.
  unfold resolve. induction registry as [|spec registry IH]; simpl; [done|].
  intros Hnot. destruct (String.eqb_spec (name_of spec) name) as [Heq|Hne].
  - destruct Hnot. by left.
  - apply IH. intros Hin. apply Hnot. by right.
Qed.

Lemma unknown_tool_reason_mentions (name : string) :
  mentions name (unknown_tool_reason name).
Proof. by exists "UnknownToolError: ", " is not a registered tool". Qed.

Lemma string_app_nil_r (s : string) : s +:+ "" = s.
Proof.
  induction s as [|c s IH]; [done|].
  change (String c (s +:+ "") = String c s). by rewrite IH.
Qed.

Lemma string_app_assoc (a b c : string) : (a +:+ b) +:+ c = a +:+ b +:+ c.
Proof.
  induction a as [|x a IH]; [done|].
  change (String x ((a +:+ b) +:+ c) = String x (a +:+ b +:+ c)). by rewrite IH.
Qed.

Lemma capability_failure_reason_mentions (e : exn) :
  mentions (exn_str e) (capability_failure_reason e).
Proof.
  destruct e as [msg|cls msg]; simpl.
  - exists "HttpError: ", "". by rewrite string_app_nil_r.
  - exists (cls +:+ ": "), "". by rewrite string_app_nil_r, string_app_assoc.
Qed.

Lemma action_step_returns (registry : list ToolSpec) (request : ActionRequest) :
  returns (action_step registry request).
Proof.
  unfold action_step, returns.
  destruct (resolve _ _) as [spec|]; [|by eexists].
  destruct (validate _ _); [|by eexists].
  destruct (invoke_tool _ _); by eexists.
Qed.

(** [send_email] has no handler: a failure of the send call leaves it as an
    exception. *)
Lemma send_email_propagates get_gmail_service encode_message messages_send to subject body e :
  get_gmail_service = Return tt ->
  messages_send (encode_message to subject body) = Raise e ->
  send_email get_gmail_service encode_message messages_send to subject body = Raise e.
Proof. intros Hs He. unfold send_email. by rewrite Hs, He. Qed.

(** [create_calendar_event] turns an HttpError of the insert call into a text
    and lets every other exception pass. *)
Lemma create_calendar_event_handler get_calendar_service events_insert
    summary start_time end_time description attendees e :
  get_calendar_service = Return tt ->
  events_insert {| ev_summary := summary; ev_description := description;
                   ev_start := (start_time, LOCAL_TIMEZONE);
                   ev_end := (end_time, LOCAL_TIMEZONE);
                   ev_attendees := default [] attendees |} = Raise e ->
  create_calendar_event get_calendar_service events_insert
    summary start_time end_time description attendees
  = if is_HttpError e then Return ("An error occurred: " +:+ exn_str e) else Raise e.
Proof.
  intros Hs He. unfold create_calendar_event. rewrite Hs. simpl. rewrite He. simpl.
  by destruct (is_HttpError e).
Qed.

(** Through the Action Step a failure of [send_email]'s provider call is a
    failed result that describes it. *)
Lemma send_email_failure_is_captured
    get_gmail_service encode_message messages_send messages_list messages_get
    get_calendar_service events_insert get_people_service connections_list str_lower
    (args : gmap string string) to subject body e :
  args !! "to" = Some to ->
  args !! "subject" = Some subject ->
  args !! "body" = Some body ->
  validate [("to", true); ("subject", true); ("body", true)] args = true ->
  get_gmail_service = Return tt ->
  messages_send (encode_message to subject body) = Raise e ->
  action_step
    (google_tools get_gmail_service encode_message messages_send messages_list messages_get
       get_calendar_service events_insert get_people_service connections_list str_lower)
    {| tool_name := "send_email"; arguments_of := args |}
  = Return (Failed "send_email" (capability_failure_reason e)).
Proof.
  intros Hto Hsubject Hbody Hvalid Hs He.
  unfold action_step.
  replace (resolve _ _)
    with (Some (send_email_tool get_gmail_service encode_message messages_send))
    by reflexivity.
  cbn [tool_name arguments_of parameter_schema invoke_tool send_email_tool].
  rewrite Hvalid, Hto, Hsubject, Hbody.
  by rewrite (send_email_propagates _ _ _ _ _ _ e Hs He).
Qed.

(** C5: a request that names a tool absent from the registry is answered by
    the Action Step with a failed result whose failure_reason mentions the
    name, and the action node returns it as a tool_result message instead of
    raising. *)
Theorem unknown_tool_is_failed_result
    (py_str : PyVal -> string) (registry : list ToolSpec) (request : ActionRequest) :
  ~ In (tool_name request) (map name_of registry) ->
  (exists failure_reason,
     action_step registry request = Return (Failed (tool_name request) failure_reason) /\
     mentions (tool_name request) failure_reason) /\
  (forall state m,
     last (messages state) = Some m ->
     request_of m = Some request ->
     exists reply,
       ToolNode py_str registry state = Return {| messages := [reply] |} /\
       type reply = tool /\
       mentions (tool_name request) (content reply)).
Proof.
  intros Habsent.
  assert (Hstep : action_step registry request
                  = Return (Failed (tool_name request) (unknown_tool_reason (tool_name request)))).
  { unfold action_step. by rewrite (resolve_absent _ _ Habsent). }
  split.
  - eexists. split; [exact Hstep|]. apply unknown_tool_reason_mentions.
  - intros state m Hlast Hreq. unfold ToolNode. rewrite Hlast, Hreq, Hstep. simpl.
    eexists. split; [done|]. split; [done|]. simpl. apply unknown_tool_reason_mentions.
Qed.

Lemma unknown_tool_is_failed_result_witness :
  exists failure_reason,
    action_step (stub_registry supervisor_tool_names)
      {| tool_name := "run_weather_agent"; arguments_of := {[ "query" := "Paris" ]} |}
    = Return (Failed "run_weather_agent" failure_reason) /\
    mentions "run_weather_agent" failure_reason.
Proof.
  apply (proj1 (unknown_tool_is_failed_result text_of (stub_registry supervisor_tool_names)
                  {| tool_name := "run_weather_agent";
                     arguments_of := {[ "query" := "Paris" ]} |}
                  ltac:(simpl; intuition discriminate))).
Defined.

(** C2: the Action Step never raises.  Whatever the registry and the request,
    it returns a result; when the invoked capability raises, the result is a
    failed one whose failure_reason describes the exception; and the action
    node returns one tool_result message for every state. *)
Theorem action_step_catches_capability_failures
    (py_str : PyVal -> string) (registry : list ToolSpec) (request : ActionRequest) :
  (exists result, action_step registry request = Return result) /\
  (forall spec e,
     resolve registry (tool_name request) = Some spec ->
     validate (parameter_schema spec) (arguments_of request) = true ->
     invoke_tool spec (arguments_of request) = Raise e ->
     action_step registry request
     = Return (Failed (tool_name request) (capability_failure_reason e)) /\
     mentions (exn_str e) (capability_failure_reason e) /\
     capability_failure_reason e <> "") /\
  (forall state, exists reply,
     ToolNode py_str registry state = Return {| messages := [reply] |} /\ type reply = tool).
Proof.
  split; [apply action_step_returns|]. split.
  - intros spec e Hres Hvalid Hraise. unfold action_step.
    rewrite Hres, Hvalid, Hraise. split; [done|].
    split; [apply capability_failure_reason_mentions|].
    destruct e as [msg|[|c cls] msg]; discriminate.
  - intros state. unfold ToolNode.
    destruct (last (messages state)) as [m|]; [|by eexists].
    destruct (request_of m) as [req|].
    + destruct (action_step_returns registry req) as [result ->]. by eexists.
    + by eexists.
Qed.

(** [send_email] refused by the provider: the exception of the tool becomes a
    failed result. *)
Lemma action_step_catches_capability_failures_witness :
  send_email (Return tt) plain_encode refused_send
    "jane@example.com" "Reminder" "See you at 3 PM."
  = Raise (HttpError "<HttpError 403 Insufficient Permission>") /\
  action_step example_google_tools send_request
  = Return (Failed "send_email" "HttpError: <HttpError 403 Insufficient Permission>") /\
  mentions "<HttpError 403 Insufficient Permission>"
           "HttpError: <HttpError 403 Insufficient Permission>" /\
  "HttpError: <HttpError 403 Insufficient Permission>" <> "".
Proof.
  split; [reflexivity|].
  apply (proj1 (proj2 (action_step_catches_capability_failures text_of
                         example_google_tools send_request))
           (send_email_tool (Return tt) plain_encode refused_send)
           (HttpError "<HttpError 403 Insufficient Permission>")).
  - reflexivity.
  - vm_compute. reflexivity.
  - reflexivity.
Defined.

(** ** The transcript *)

Lemma request_refs_app (ms ns : list BaseMessage) :
  request_refs (ms ++ ns) = (request_refs ms ++ request_refs ns)%list.
Proof. unfold request_refs. by rewrite List.filter_app, map_app. Qed.

(** Two requests of one reference, in a transcript whose requests have
    distinct references, stand at one position. *)
Lemma request_position_unique (ms : list BaseMessage) : forall j j' ref,
  NoDup (request_refs ms) ->
  request_at ms j ref -> request_at ms j' ref -> j = j'.
Proof.
  induction ms as [|m ms IH]; intros j j' ref Hnd (r & Hr & Hfc & Href) (r' & Hr' & Hfc' & Href').
  - discriminate.
  - assert (Hin : forall k x, ms !! k = Some x -> has_function_call x = true ->
                          action_ref x ∈ request_refs ms).
    { intros k x Hk Hx. unfold request_refs. apply list_elem_of_fmap.
      exists x. split; [done|]. apply list_elem_of_In, filter_In. split; [|done].
      apply list_elem_of_In. by eapply list_elem_of_lookup_2. }
    unfold request_refs in Hnd. simpl in Hnd.
    destruct j as [|j], j' as [|j']; simpl in Hr, Hr'.
    + done.
    + injection Hr as ->. rewrite Hfc in Hnd. simpl in Hnd.
      apply NoDup_cons in Hnd as [Hnotin _]. destruct Hnotin.
      rewrite Href, <- Href'. by eapply Hin.
    + injection Hr' as ->. rewrite Hfc' in Hnd. simpl in Hnd.
      apply NoDup_cons in Hnd as [Hnotin _]. destruct Hnotin.
      rewrite Href', <- Href. by eapply Hin.
    + f_equal. apply (IH j j' ref).
      * destruct (has_function_call m); [|done].
        simpl in Hnd. by apply NoDup_cons in Hnd as [_ Hnd].
      * by exists r.
      * by exists r'.
Qed.

Lemma request_at_app_l (ms ns : list BaseMessage) j ref :
  request_at ms j ref -> request_at (ms ++ ns) j ref.
Proof.
  intros (r & Hr & Hfc & Href). exists r. split; [|done].
  by apply lookup_app_l_Some.
Qed.

Lemma linked_valid (ms : list BaseMessage) :
  linked ms -> NoDup (request_refs ms) -> valid_chain ms.
Proof.
  intros Hex Hnd i m Hi Htool.
  destruct (Hex i m Hi Htool) as (j & Hlt & Hreq).
  exists j. split; [done|].
  intros j' [_ Hreq']. by eapply request_position_unique.
Qed.

Lemma valid_linked (ms : list BaseMessage) : valid_chain ms -> linked ms.
Proof.
  intros Hvalid i m Hi Htool. destruct (Hvalid i m Hi Htool) as (j & Hj & _). by exists j.
Qed.

Lemma linked_reply (ms : list BaseMessage) (reply : BaseMessage) :
  linked ms -> type reply = ai -> linked (ms ++ [reply]).
Proof.
  intros Hex Hai i m Hi Htool.
  apply lookup_app_Some in Hi as [Hi|[_ Hi]].
  - destruct (Hex i m Hi Htool) as (j & Hlt & Hreq).
    exists j. split; [done|]. by apply request_at_app_l.
  - destruct (i - length ms) as [|k]; simpl in Hi; [|done].
    injection Hi as <-. congruence.
Qed.

Lemma linked_result (ms : list BaseMessage) (r t : BaseMessage) :
  linked ms ->
  last ms = Some r ->
  has_function_call r = true ->
  action_ref t = action_ref r ->
  linked (ms ++ [t]).
Proof.
  intros Hex Hlast Hfc Href i m Hi Hm.
  apply lookup_app_Some in Hi as [Hi|[Hge Hi]].
  - destruct (Hex i m Hi Hm) as (j & Hlt & Hreq).
    exists j. split; [done|]. by apply request_at_app_l.
  - destruct (i - length ms) as [|k] eqn:Hk; simpl in Hi; [|done].
    injection Hi as <-.
    rewrite last_lookup in Hlast.
    assert (Hpos : length ms <> 0).
    { intros Hz. rewrite Hz in Hlast. simpl in Hlast.
      destruct ms; [discriminate|]. simpl in Hz. lia. }
    exists (pred (length ms)). split; [lia|].
    apply request_at_app_l. exists r. by rewrite Href.
Qed.

Section ChainFacts.

Variable SYSTEM_PROMPT : string.
Variable model_invoke : list BaseMessage -> Outcome BaseMessage.
Variable py_str : PyVal -> string.
Variable registry : list ToolSpec.

(** The Reasoning Step answers with assistant messages. *)
Hypothesis replies_are_ai : forall ms reply,
  model_invoke ms = Return reply -> type reply = ai.

Local Abbreviation step' :=
  (step SYSTEM_PROMPT model_invoke (ToolNode py_str registry)).
Local Abbreviation steps' :=
  (steps SYSTEM_PROMPT model_invoke (ToolNode py_str registry)).

Lemma step_invariant c1 c2 : step' c1 c2 -> linked_invariant c1 -> linked_invariant c2.
Proof.
  intros Hstep [Hch Hctl].
  destruct Hstep as [state update Hcall Hgo|state update Hcall Hgo|state update Htool];
    simpl in *.
  - apply call_model_inv in Hcall as (reply & Hreply & ->).
    rewrite should_continue_reply in Hgo. injection Hgo as Hfc.
    split; simpl.
    + apply linked_reply; eauto.
    + exists reply. unfold reducer. by rewrite last_snoc.
  - apply call_model_inv in Hcall as (reply & Hreply & ->).
    split; [|done]. simpl. apply linked_reply; eauto.
  - destruct Hctl as (r & Hlast & Hfc).
    unfold ToolNode in Htool. rewrite Hlast in Htool.
    assert (Hupd : exists result,
              update = {| messages := [tool_result py_str (action_ref r) result] |}).
    { destruct (request_of r) as [req|]; simpl in Htool.
      - destruct (action_step_returns registry req) as [result Hres].
        rewrite Hres in Htool. simpl in Htool. injection Htool as <-. by eexists.
      - injection Htool as <-. by eexists. }
    destruct Hupd as [result ->]. split; [|done]. simpl.
    by apply (linked_result _ r).
Qed.

Lemma steps_invariant c1 c2 : steps' c1 c2 -> linked_invariant c1 -> linked_invariant c2.
Proof. induction 1; eauto using step_invariant. Qed.

End ChainFacts.

Section AppendOnly.

Variable SYSTEM_PROMPT : string.
Variable model_invoke : list BaseMessage -> Outcome BaseMessage.
Variable tool_node : AgentState -> Outcome AgentState.

Lemma step_appends c1 c2 :
  step SYSTEM_PROMPT model_invoke tool_node c1 c2 ->
  exists new, messages (snd c2) = (messages (snd c1) ++ new)%list.
Proof. intros [state update _ _|state update _ _|state update _]; by eexists. Qed.

Lemma steps_append c1 c2 :
  steps SYSTEM_PROMPT model_invoke tool_node c1 c2 ->
  messages (snd c1) `prefix_of` messages (snd c2).
Proof.
  induction 1 as [c|c1 c2 c3 Hstep _ IH]; [done|].
  destruct (step_appends _ _ Hstep) as [new Hnew].
  etrans; [|exact IH]. rewrite Hnew. by apply prefix_app_r.
Qed.

(** A run that ends in DONE is a sequence of transitions. *)
Lemma run_done_steps fuel : forall state final,
  ending (run SYSTEM_PROMPT model_invoke tool_node fuel Agent state) = Done final ->
  steps SYSTEM_PROMPT model_invoke tool_node (At Agent, state) (Ended, final).
Proof.
  induction fuel as [fuel IH] using lt_wf_ind. intros state final Hend.
  destruct fuel as [|fuel]; [discriminate|].
  simpl in Hend.
  destruct (call_model _ _ state) as [update|e] eqn:Hcall; [|discriminate].
  simpl in Hend.
  destruct (should_continue _) as [[|]|e] eqn:Hgo; [| |discriminate].
  - destruct fuel as [|fuel]; [discriminate|]. simpl in Hend.
    destruct (tool_node _) as [result|e] eqn:Htool; [|discriminate].
    simpl in Hend.
    eapply steps_cons; [by apply step_request|].
    eapply steps_cons; [by apply step_action|].
    apply (IH fuel ltac:(lia) _ _ Hend).
  - injection Hend as <-.
    eapply steps_cons; [by apply step_answer|]. apply steps_refl.
Qed.

End AppendOnly.

(** C6, as stated, fails: nothing in the loop keeps the references of the
    requests apart.  With a model that requests an action at every turn
    without a reference of its own, the transcript after two rounds holds two
    requests and two results of one reference, and the second result resolves
    to both requests. *)
Lemma chain_breaks_on_reused_reference :
  exists state,
    steps "" insistent_model (ToolNode text_of (stub_registry supervisor_tool_names))
      (At Agent, {| messages := [HumanMessage "Summarise the news"] |}) (At Agent, state) /\
    length (messages state) = 5 /\
    ~ valid_chain (messages state).
Proof.
  eexists. split; [|split].
  - eapply steps_cons; [by apply step_request|].
    eapply steps_cons; [by apply step_action|].
    eapply steps_cons; [by apply step_request|].
    eapply steps_cons; [by apply step_action|].
    apply steps_refl.
  - reflexivity.
  - intros Hvalid.
    destruct (Hvalid 4 _ eq_refl eq_refl) as (j & _ & Hunique).
    assert (H1 : 1 = j).
    { apply Hunique. split; [lia|]. eexists. split; [reflexivity|]. by split. }
    assert (H3 : 3 = j).
    { apply Hunique. split; [lia|]. eexists. split; [reflexivity|]. by split. }
    lia.
Qed.

(** C6, amended: the transcript only grows, and every tool_result resolves to
    a preceding request.  Every transition extends the transcript at its end,
    whatever the action node; and with the Action Step as the action node and
    a Reasoning Step that answers with assistant messages, every transcript
    reached from one whose results resolve (by transitions, or as the result
    of [invoke]) has the initial transcript as a prefix, each tool_result's
    reference resolves to a preceding action request, and to exactly one when
    the requests of the transcript carry pairwise distinct references. *)
Theorem transcript_append_only_and_linked
    (SYSTEM_PROMPT : string)
    (model_invoke : list BaseMessage -> Outcome BaseMessage)
    (py_str : PyVal -> string) (registry : list ToolSpec) (init : AgentState) :
  (forall ms reply, model_invoke ms = Return reply -> type reply = ai) ->
  linked (messages init) ->
  (forall tool_node c1 c2,
     step SYSTEM_PROMPT model_invoke tool_node c1 c2 ->
     exists new, messages (snd c2) = (messages (snd c1) ++ new)%list) /\
  (forall c,
     steps SYSTEM_PROMPT model_invoke (ToolNode py_str registry) (At Agent, init) c ->
     messages init `prefix_of` messages (snd c) /\
     linked (messages (snd c)) /\
     (NoDup (request_refs (messages (snd c))) -> valid_chain (messages (snd c)))) /\
  (forall fuel final,
     invoke SYSTEM_PROMPT model_invoke (ToolNode py_str registry) fuel init
     = Some (Return final) ->
     messages init `prefix_of` messages final /\
     linked (messages final) /\
     (NoDup (request_refs (messages final)) -> valid_chain (messages final))).
Proof.
  intros Hai Hlinked.
  assert (Hinit : linked_invariant (At Agent, init)) by (by split).
  assert (Hsteps : forall c,
     steps SYSTEM_PROMPT model_invoke (ToolNode py_str registry) (At Agent, init) c ->
     messages init `prefix_of` messages (snd c) /\
     linked (messages (snd c)) /\
     (NoDup (request_refs (messages (snd c))) -> valid_chain (messages (snd c)))).
  { intros c Hc.
    destruct (steps_invariant SYSTEM_PROMPT model_invoke py_str registry
                Hai _ _ Hc Hinit) as [Hl _].
    split; [apply (steps_append _ _ _ _ _ Hc)|]. split; [done|].
    by apply linked_valid. }
  split; [|split; [exact Hsteps|]].
  - intros tool_node c1 c2. apply step_appends.
  - intros fuel final Hinv. unfold invoke, stream in Hinv.
    destruct (ending _) as [final'| | |] eqn:Hend; try discriminate.
    injection Hinv as ->.
    apply (Hsteps (Ended, final)). by eapply run_done_steps.
Qed.

Lemma cautious_model_ai ms reply : cautious_model ms = Return reply -> type reply = ai.
Proof. unfold cautious_model. by destruct (existsb _ _); intros [= <-]. Qed.

(** A run with one request to the calendar specialist, from the history of
    the example. *)
Lemma transcript_append_only_and_linked_witness :
  exists final,
    invoke "" cautious_model (ToolNode text_of (stub_registry supervisor_tool_names)) 3
      {| messages := reconstruct_messages example_request |} = Some (Return final) /\
    length (messages final) = 6 /\
    reconstruct_messages example_request `prefix_of` messages final /\
    linked (messages final) /\
    valid_chain (messages final).
Proof.
  eexists. split; [reflexivity|]. split; [reflexivity|].
  pose proof (proj2 (proj2 (transcript_append_only_and_linked "" cautious_model text_of
                         (stub_registry supervisor_tool_names)
                         {| messages := reconstruct_messages example_request |}
                         cautious_model_ai
                         ltac:(intros [|[|[|i]]] m [= <-]; discriminate))) 3 _ eq_refl)
    as (Hprefix & Hlinked & Hvalid).
  split; [exact Hprefix|]. split; [exact Hlinked|].
  apply Hvalid. vm_compute. apply NoDup_singleton.
Defined.

(** * Further properties of the tools and the front ends *)

(** ** EmailAgent.py *)

Lemma headers_fold_lookup (hs : list (string * string)) (k : string) :
  forall d : gmap string string,
  foldl (fun d h => <[fst h := snd h]> d) d hs !! k
  = match last (List.filter (fun h => String.eqb (fst h) k) hs) with
    | Some h => Some (snd h)
    | None => d !! k
    end.
Proof.
  induction hs as [|h hs IH]; intros d; simpl; [done|].
  rewrite IH. destruct (String.eqb_spec (fst h) k) as [Heq|Hne].
  - rewrite last_cons. destruct (last _); [done|]. rewrite <- Heq. apply lookup_insert_eq.
  - destruct (last _); [done|]. by apply lookup_insert_ne.
Qed.

(** X1: in the dictionary built from a message's headers, a name is bound to
    the value of the last header of that name, and is missing when no header
    has it. *)
Theorem headers_dict_last (hs : list (string * string)) (k : string) :
  headers_dict hs !! k = snd <$> last (List.filter (fun h => String.eqb (fst h) k) hs).
Proof.
  unfold headers_dict. rewrite headers_fold_lookup, lookup_empty.
  by destruct (last _).
Qed.

Lemma get_emails_loop_agree (messages_get messages_get' : string -> Outcome MessageData)
    (msgs : list MessageStub) : forall emails,
  (forall msg, In msg msgs -> messages_get (id msg) = messages_get' (id msg)) ->
  get_emails_loop messages_get msgs emails = get_emails_loop messages_get' msgs emails.
Proof.
  induction msgs as [|msg msgs IH]; intros emails Hagree; simpl; [done|].
  rewrite <- (Hagree msg) by (by left).
  destruct (messages_get (id msg)) as [data|e]; simpl; [|done].
  apply IH. intros msg' Hin. apply Hagree. by right.
Qed.

(** X2: [get_emails] fetches the first five hits only: two providers that
    answer alike for those give the same result, whatever they answer for the
    other messages. *)
Theorem get_emails_fetches_first_five_only
    (get_gmail_service : Outcome unit)
    (messages_list : string -> Outcome (option (list MessageStub)))
    (messages_get messages_get' : string -> Outcome MessageData)
    (query : string) :
  (forall results msg,
     messages_list query = Return results ->
     In msg (take 5 (default [] results)) ->
     messages_get (id msg) = messages_get' (id msg)) ->
  get_emails get_gmail_service messages_list messages_get query
  = get_emails get_gmail_service messages_list messages_get' query.
Proof.
  intros Hagree. unfold get_emails.
  destruct get_gmail_service as [[]|e]; [|done]. cbn [bind].
  destruct (messages_list query) as [results|e] eqn:Hlist; [|done]. cbn [bind].
  destruct (default [] results) as [|msg msgs] eqn:Hmsgs; [done|].
  rewrite (get_emails_loop_agree messages_get messages_get'); [done|].
  intros msg' Hin. apply (Hagree results); [done|]. by rewrite Hmsgs.
Qed.

Lemma get_emails_fetches_first_five_only_witness :
  get_emails (Return tt) seven_hits plain_message "from:jane@example.com"
  = get_emails (Return tt) seven_hits
      (fun i => if String.eqb i "m6" then Raise (HttpError "<HttpError 404 Not Found>")
                else plain_message i)
      "from:jane@example.com".
Proof.
  apply get_emails_fetches_first_five_only.
  intros results msg [= <-] Hin. simpl in Hin.
  repeat (destruct Hin as [<-|Hin]; [reflexivity|]). destruct Hin.
Defined.

Lemma get_emails_loop_fails (messages_get : string -> Outcome MessageData)
    (pre : list MessageStub) : forall msg post emails e,
  Forall (fun m => returns (messages_get (id m))) pre ->
  messages_get (id msg) = Raise e ->
  get_emails_loop messages_get (pre ++ msg :: post) emails = Raise e.
Proof.
  induction pre as [|m pre IH]; intros msg post emails e Hpre Hfail; simpl.
  - by rewrite Hfail.
  - apply Forall_cons in Hpre as [[data Hdata] Hpre]. rewrite Hdata. simpl.
    by apply IH.
Qed.

(** X3: when one of the first five hits cannot be fetched, [get_emails]
    raises the exception of the first failing fetch: it returns no partial
    list and has no handler. *)
Theorem get_emails_raises_on_failed_fetch
    (get_gmail_service : Outcome unit)
    (messages_list : string -> Outcome (option (list MessageStub)))
    (messages_get : string -> Outcome MessageData)
    (query : string) (results : option (list MessageStub))
    (pre post : list MessageStub) (msg : MessageStub) (e : exn) :
  get_gmail_service = Return tt ->
  messages_list query = Return results ->
  take 5 (default [] results) = (pre ++ msg :: post)%list ->
  Forall (fun m => returns (messages_get (id m))) pre ->
  messages_get (id msg) = Raise e ->
  get_emails get_gmail_service messages_list messages_get query = Raise e.
Proof.
  intros Hs Hlist Htake Hpre Hfail. unfold get_emails. rewrite Hs, Hlist. cbn [bind].
  destruct (default [] results) as [|m ms] eqn:Hmsgs.
  - destruct pre; discriminate.
  - rewrite Htake, (get_emails_loop_fails _ _ _ _ _ _ Hpre Hfail). done.
Qed.

Lemma get_emails_raises_on_failed_fetch_witness :
  get_emails (Return tt) seven_hits third_fetch_fails "from:jane@example.com"
  = Raise (HttpError "<HttpError 404 Not Found>").
Proof.
  apply (get_emails_raises_on_failed_fetch (Return tt) seven_hits third_fetch_fails
           "from:jane@example.com"
           (Some (map (fun i => {| id := i; threadId := "t" +:+ i |})
                      ["m1"; "m2"; "m3"; "m4"; "m5"; "m6"; "m7"]))
           [ {| id := "m1"; threadId := "tm1" |}; {| id := "m2"; threadId := "tm2" |} ]
           [ {| id := "m4"; threadId := "tm4" |}; {| id := "m5"; threadId := "tm5" |} ]
           {| id := "m3"; threadId := "tm3" |}).
  - reflexivity.
  - reflexivity.
  - reflexivity.
  - repeat constructor; by eexists.
  - reflexivity.
Defined.

(** X4: the subject of a reply begins with "re:", letter case ignored, and a
    subject that already does is kept as it is: replying to a reply does not
    stack prefixes. *)
Theorem reply_subject_prefixed_once (subject : string) :
  String.prefix "re:" (lower (reply_subject_of subject)) = true /\
  reply_subject_of (reply_subject_of subject) = reply_subject_of subject /\
  (String.prefix "re:" (lower subject) = true -> reply_subject_of subject = subject).
Proof.
  assert (Hre : forall s, String.prefix "re:" (lower ("Re: " +:+ s)) = true) by done.
  unfold reply_subject_of.
  destruct (String.prefix "re:" (lower subject)) eqn:Hp.
  - by rewrite Hp.
  - by rewrite Hre.
Qed.

(** X5: when the original message has no header named exactly "Message-ID",
    [reply_to_email] raises a KeyError before it encodes or sends anything,
    whatever the encoder and the provider's send call would do. *)
Theorem reply_needs_message_id
    (get_gmail_service : Outcome unit)
    (messages_get_original : string -> Outcome OriginalMessage)
    (encode_reply : ReplyMessage -> Outcome string)
    (messages_send_in_thread : string -> string -> Outcome unit)
    (message_id body : string) (original : OriginalMessage) :
  get_gmail_service = Return tt ->
  messages_get_original message_id = Return original ->
  (forall h, In h (original_headers original) -> fst h <> "Message-ID") ->
  reply_to_email get_gmail_service messages_get_original encode_reply
    messages_send_in_thread message_id body
  = Raise (Exception "KeyError" "'Message-ID'").
Proof.
  intros Hs Hget Hnone. unfold reply_to_email. rewrite Hs, Hget. cbn [bind].
  unfold getitem, headers_dict. rewrite headers_fold_lookup, lookup_empty.
  assert (Hfilter : List.filter (fun h => String.eqb (fst h) "Message-ID")
                      (original_headers original) = []).
  { induction (original_headers original) as [|h hs IH]; simpl; [done|].
    destruct (String.eqb_spec (fst h) "Message-ID") as [Heq|Hne].
    - destruct (Hnone h); [by left|done].
    - apply IH. intros h' Hin. apply Hnone. by right. }
  by rewrite Hfilter.
Qed.

Lemma reply_needs_message_id_witness :
  reply_to_email (Return tt) small_d_message
    (fun _ => Return "raw") (fun _ _ => Return tt) "m1" "Thanks, see you then."
  = Raise (Exception "KeyError" "'Message-ID'").
Proof.
  apply (reply_needs_message_id (Return tt) small_d_message _ _ "m1" _ _ eq_refl eq_refl).
  simpl. intros h [<-|[<-|[<-|[]]]]; discriminate.
Defined.

(** X6: when no label has the given name, compared as the source compares
    them (both lower-cased by [str.lower], whatever that function is),
    [add_label_to_email] answers "Error: Label '...' not found." and changes
    no message, whatever the provider's modify call would do. *)
Theorem add_label_not_found
    (str_lower : string -> string)
    (get_gmail_service : Outcome unit)
    (labels_list : Outcome (option (list Label)))
    (messages_modify : string -> list string -> list string -> Outcome unit)
    (message_id label_name' : string) (labels : option (list Label)) :
  get_gmail_service = Return tt ->
  labels_list = Return labels ->
  Forall (fun l => str_lower (label_name l) <> str_lower label_name') (default [] labels) ->
  add_label_to_email str_lower get_gmail_service labels_list messages_modify
    message_id label_name'
  = Return ("Error: Label '" +:+ label_name' +:+ "' not found.").
Proof.
  intros Hs Hlist Hnone. unfold add_label_to_email. rewrite Hs, Hlist. cbn [bind].
  assert (Hfind : find_label_id str_lower (default [] labels) label_name' = None).
  { unfold find_label_id.
    induction Hnone as [|l ls Hl _ IH]; simpl; [done|].
    destruct (String.eqb_spec (str_lower (label_name l)) (str_lower label_name'));
      [done|apply IH]. }
  by rewrite Hfind.
Qed.

Lemma add_label_not_found_witness :
  add_label_to_email lower (Return tt) example_labels
    (fun _ _ _ => Raise (HttpError "<HttpError 400 Bad Request>")) "m1" "Important"
  = Return "Error: Label 'Important' not found.".
Proof.
  apply (add_label_not_found lower (Return tt) example_labels _ "m1" "Important" _
           eq_refl eq_refl).
  simpl. repeat constructor; discriminate.
Defined.

(** X7: a label is looked up by its name, both names lower-cased by
    [str.lower] (whatever that function is), and the first label of the list
    that matches is the one added: the message is modified with that label's
    id and nothing is removed. *)
Theorem add_label_uses_first_match
    (str_lower : string -> string)
    (get_gmail_service : Outcome unit)
    (labels_list : Outcome (option (list Label)))
    (messages_modify : string -> list string -> list string -> Outcome unit)
    (message_id label_name' : string) (labels : option (list Label))
    (pre post : list Label) (l : Label) :
  get_gmail_service = Return tt ->
  labels_list = Return labels ->
  default [] labels = (pre ++ l :: post)%list ->
  Forall (fun l' => str_lower (label_name l') <> str_lower label_name') pre ->
  str_lower (label_name l) = str_lower label_name' ->
  label_id l <> "" ->
  add_label_to_email str_lower get_gmail_service labels_list messages_modify
    message_id label_name'
  = (_ <- messages_modify message_id [label_id l] [] ;;
     Return ("Label '" +:+ label_name' +:+ "' added to message " +:+ message_id +:+ ".")).
Proof.
  intros Hs Hlist Hsplit Hpre Hmatch Hid.
  unfold add_label_to_email. rewrite Hs, Hlist. cbn [bind]. rewrite Hsplit.
  assert (Hfind : find_label_id str_lower (pre ++ l :: post) label_name'
                  = Some (label_id l)).
  { unfold find_label_id. clear Hsplit.
    induction Hpre as [|l' ls Hl' _ IH]; simpl.
    - by rewrite Hmatch, String.eqb_refl.
    - destruct (String.eqb_spec (str_lower (label_name l')) (str_lower label_name'));
        [done|apply IH]. }
  rewrite Hfind. simpl. destruct (label_id l); [done|reflexivity].
Qed.

Lemma add_label_uses_first_match_witness :
  add_label_to_email lower (Return tt) example_labels (fun _ _ _ => Return tt)
    "m1" "review later"
  = Return "Label 'review later' added to message m1.".
Proof.
  apply (add_label_uses_first_match lower (Return tt) example_labels (fun _ _ _ => Return tt)
           "m1" "review later" _
           [ {| label_id := "Label_1"; label_name := "Urgent" |} ] []
           {| label_id := "Label_2"; label_name := "Review Later" |} eq_refl eq_refl).
  - reflexivity.
  - repeat constructor. discriminate.
  - reflexivity.
  - discriminate.
Defined.

(** ** CalendarAgent.py *)

Lemma event_entries_length (events : list CalendarItem) : forall entries,
  event_entries events = Return entries -> length entries = length events.
Proof.
  induction events as [|event events IH]; intros entries; simpl.
  - by intros [= <-].
  - destruct (event_entry event) as [entry|e]; [|discriminate]. simpl.
    destruct (event_entries events) as [rest|e]; [|discriminate]. simpl.
    intros [= <-]. simpl. f_equal. by apply IH.
Qed.

(** X8: once the calendar session is obtained, [get_calendar_events] never
    raises: it returns one record per event of the day, or the text "No
    upcoming events found for ...", or, for any failure inside (the date, the
    provider, an event with a missing key), a text beginning "An error
    occurred:". *)
Theorem get_calendar_events_never_raises
    (date : Type) (get_calendar_service : Outcome unit)
    (utcnow_date : date) (next_day : date -> date) (strptime : string -> Outcome date)
    (start_of_day_iso end_of_day_iso : date -> string)
    (events_list : string -> string -> Outcome (option (list CalendarItem)))
    (day : option string) :
  get_calendar_service = Return tt ->
  exists v,
    get_calendar_events date get_calendar_service utcnow_date next_day strptime
      start_of_day_iso end_of_day_iso events_list day = Return v /\
    ((exists entries, v = PList entries /\ entries <> []) \/
     v = PStr ("No upcoming events found for " +:+ fmt_optional day +:+ ".") \/
     (exists text, v = PStr text /\ begins_with "An error occurred:" text)).
Proof.
  intros Hs. unfold get_calendar_events. rewrite Hs. cbn [bind].
  assert (Herr : forall e, begins_with "An error occurred:" ("An error occurred: " +:+ exn_str e)).
  { intros e. by exists (" " +:+ exn_str e). }
  assert (Hcaught : forall e, exists v,
            Return (PStr ("An error occurred: " +:+ exn_str e)) = Return v /\
            ((exists entries, v = PList entries /\ entries <> []) \/
             v = PStr ("No upcoming events found for " +:+ fmt_optional day +:+ ".") \/
             (exists text, v = PStr text /\ begins_with "An error occurred:" text))).
  { intros e. eexists. split; [reflexivity|]. right. right. eexists. split; [reflexivity|].
    apply Herr. }
  destruct (target_date _ _ _ _ day) as [target|e]; cbn [bind try_except]; [|apply Hcaught].
  destruct (events_list _ _) as [events_result|e]; cbn [bind try_except]; [|apply Hcaught].
  destruct (default [] events_result) as [|event events] eqn:Hevents; cbn [bind try_except].
  { eexists. split; [reflexivity|]. right. by left. }
  destruct (event_entries (event :: events)) as [entries|e] eqn:Hentries;
    cbn [bind try_except]; [|apply Hcaught].
  eexists. split; [done|]. left. exists entries. split; [done|].
  apply event_entries_length in Hentries. by destruct entries.
Qed.

Lemma get_calendar_events_never_raises_witness :
  exists v,
    get_calendar_events string (Return tt) "2025-07-01" example_next_day example_strptime
      (fun d => d +:+ "T00:00:00Z") (fun d => d +:+ "T23:59:59.999999Z")
      untitled_day (Some "Today") = Return v /\
    ((exists entries, v = PList entries /\ entries <> []) \/
     v = PStr ("No upcoming events found for " +:+ fmt_optional (Some "Today") +:+ ".") \/
     (exists text, v = PStr text /\ begins_with "An error occurred:" text)).
Proof.
  apply (get_calendar_events_never_raises string (Return tt) "2025-07-01" example_next_day
           example_strptime (fun d => d +:+ "T00:00:00Z") (fun d => d +:+ "T23:59:59.999999Z")
           untitled_day (Some "Today") eq_refl).
Defined.

(** X9: a [day] that is neither "today" nor "tomorrow" (letter case ignored)
    and that the date parser rejects is answered with the parser's error as a
    text, without any call to the calendar provider. *)
Theorem get_calendar_events_bad_date
    (date : Type) (get_calendar_service : Outcome unit)
    (utcnow_date : date) (next_day : date -> date) (strptime : string -> Outcome date)
    (start_of_day_iso end_of_day_iso : date -> string)
    (events_list : string -> string -> Outcome (option (list CalendarItem)))
    (day : string) (e : exn) :
  get_calendar_service = Return tt ->
  lower day <> "today" ->
  lower day <> "tomorrow" ->
  strptime day = Raise e ->
  get_calendar_events date get_calendar_service utcnow_date next_day strptime
    start_of_day_iso end_of_day_iso events_list (Some day)
  = Return (PStr ("An error occurred: " +:+ exn_str e)).
Proof.
  intros Hs Htoday Htomorrow Hparse. unfold get_calendar_events, target_date.
  rewrite Hs. cbn [bind].
  destruct (String.eqb_spec (lower day) "today"); [done|].
  destruct (String.eqb_spec (lower day) "tomorrow"); [done|].
  by rewrite Hparse.
Qed.

Lemma get_calendar_events_bad_date_witness :
  get_calendar_events string (Return tt) "2025-07-01" example_next_day example_strptime
    (fun d => d +:+ "T00:00:00Z") (fun d => d +:+ "T23:59:59.999999Z")
    (fun _ _ => Raise (Exception "AssertionError" "the provider is not called"))
    (Some "next friday")
  = Return (PStr "An error occurred: time data 'next friday' does not match format '%Y-%m-%d'").
Proof.
  apply (get_calendar_events_bad_date string (Return tt) "2025-07-01" example_next_day
           example_strptime _ _ _ "next friday"
           (Exception "ValueError" "time data 'next friday' does not match format '%Y-%m-%d'")
           eq_refl).
  - discriminate.
  - discriminate.
  - reflexivity.
Defined.

Lemma event_entries_missing_summary (pre : list CalendarItem) :
  forall event post,
  returns (event_entries pre) ->
  is_Some (item_id event) ->
  item_summary event = None ->
  event_entries (pre ++ event :: post) = Raise (Exception "KeyError" "'summary'").
Proof.
  induction pre as [|p pre IH]; intros event post Hpre [i Hid] Hsummary; simpl.
  - unfold event_entry. by rewrite Hid, Hsummary.
  - destruct Hpre as [entries Hentries]. simpl in Hentries.
    destruct (event_entry p) as [entry|e]; [|discriminate]. simpl in *.
    destruct (event_entries pre) as [rest|e] eqn:Hrest; [|discriminate].
    rewrite IH; [done|by eexists|by eexists|done].
Qed.

(** X10: one event without a summary (an untitled event) turns the whole
    listing of the day into the text "An error occurred: 'summary'": the
    events before it are not reported either. *)
Theorem get_calendar_events_untitled_event
    (date : Type) (get_calendar_service : Outcome unit)
    (utcnow_date : date) (next_day : date -> date) (strptime : string -> Outcome date)
    (start_of_day_iso end_of_day_iso : date -> string)
    (events_list : string -> string -> Outcome (option (list CalendarItem)))
    (day : option string) (target : date)
    (pre post : list CalendarItem) (event : CalendarItem) :
  get_calendar_service = Return tt ->
  target_date date utcnow_date next_day strptime day = Return target ->
  events_list (start_of_day_iso target) (end_of_day_iso target)
  = Return (Some (pre ++ event :: post)%list) ->
  returns (event_entries pre) ->
  is_Some (item_id event) ->
  item_summary event = None ->
  get_calendar_events date get_calendar_service utcnow_date next_day strptime
    start_of_day_iso end_of_day_iso events_list day
  = Return (PStr "An error occurred: 'summary'").
Proof.
  intros Hs Htarget Hlist Hpre Hid Hsummary. unfold get_calendar_events.
  rewrite Hs. cbn [bind]. rewrite Htarget. cbn [bind]. rewrite Hlist. cbn [bind].
  change (default [] (Some (pre ++ event :: post)%list)) with (pre ++ event :: post)%list.
  rewrite (event_entries_missing_summary pre event post Hpre Hid Hsummary).
  destruct (pre ++ event :: post)%list eqn:Happ; [by destruct pre|done].
Qed.

Lemma get_calendar_events_untitled_event_witness :
  get_calendar_events string (Return tt) "2025-07-01" example_next_day example_strptime
    (fun d => d +:+ "T00:00:00Z") (fun d => d +:+ "T23:59:59.999999Z")
    untitled_day None
  = Return (PStr "An error occurred: 'summary'").
Proof.
  apply (get_calendar_events_untitled_event string (Return tt) "2025-07-01" example_next_day
           example_strptime (fun d => d +:+ "T00:00:00Z") (fun d => d +:+ "T23:59:59.999999Z")
           untitled_day None "2025-07-01"
           [ {| item_id := Some "e1"; item_summary := Some "Standup";
                item_start := Some {[ "dateTime" := "2025-07-01T09:00:00+05:30" ]} |} ]
           []
           {| item_id := Some "e2"; item_summary := None;
              item_start := Some {[ "date" := "2025-07-01" ]} |}
           eq_refl eq_refl eq_refl).
  - by eexists.
  - by eexists.
  - reflexivity.
Defined.

Lemma set_dateTime_other_keys field key value field' k :
  set_dateTime field key value = Return field' ->
  k <> "dateTime" ->
  (field' ≫= fun d => d !! k) = (field ≫= fun d => d !! k).
Proof.
  unfold set_dateTime. destruct (truthy value); [|by intros [= <-]].
  destruct field as [d|]; simpl; [|discriminate].
  intros [= <-] Hk. simpl. by rewrite lookup_insert_ne.
Qed.

(** X11: the event [update_calendar_event] sends back keeps what the call
    does not name: the id, the other keys of the event, every key of start
    and end other than "dateTime" (the time zone among them), and the summary
    when none or an empty one is given; with no argument given the event is
    sent back unchanged. *)
Theorem updated_event_preserves
    (event event' : EventResource) (summary start_time end_time : option string) :
  updated_event event summary start_time end_time = Return event' ->
  event_id event' = event_id event /\
  event_other event' = event_other event /\
  (forall k, k <> "dateTime" ->
     (event_start event' ≫= fun d => d !! k) = (event_start event ≫= fun d => d !! k) /\
     (event_end event' ≫= fun d => d !! k) = (event_end event ≫= fun d => d !! k)) /\
  (truthy summary = false -> event_summary event' = event_summary event) /\
  (truthy summary = false -> truthy start_time = false -> truthy end_time = false ->
   event' = event).
Proof.
  unfold updated_event. intros Hupd.
  destruct (set_dateTime (event_start event) "start" start_time) as [start'|e] eqn:Hstart;
    [|discriminate].
  destruct (set_dateTime (event_end event) "end" end_time) as [end'|e] eqn:Hend;
    [|discriminate].
  simpl in Hupd. injection Hupd as <-. simpl.
  split; [done|]. split; [done|]. split; [|split].
  - intros k Hk. split; by eapply set_dateTime_other_keys.
  - by intros ->.
  - intros Hsum Hst Hen. unfold set_dateTime in Hstart, Hend.
    rewrite Hst in Hstart. rewrite Hen in Hend. rewrite Hsum.
    injection Hstart as <-. injection Hend as <-. by destruct event.
Qed.

Lemma updated_event_preserves_witness :
  exists event',
    updated_event stored_event (Some "") (Some "2025-07-01T17:00:00") None = Return event' /\
    event_id event' = Some "e1" /\
    event_other event' = [("description", "Quarterly review")] /\
    (event_start event' ≫= fun d => d !! "timeZone") = Some "Asia/Kolkata" /\
    (event_start event' ≫= fun d => d !! "dateTime") = Some "2025-07-01T17:00:00" /\
    event_summary event' = Some "Project Discussion".
Proof.
  eexists. split; [reflexivity|].
  pose proof (updated_event_preserves stored_event _ (Some "") (Some "2025-07-01T17:00:00")
                None eq_refl) as (Hid & Hother & Hkeys & Hsum & _).
  split; [exact Hid|]. split; [exact Hother|].
  split; [exact (proj1 (Hkeys "timeZone" ltac:(discriminate)))|].
  split; [reflexivity|]. exact (Hsum eq_refl).
Defined.

(** X12: [update_calendar_event] asked for a new start time on an event that
    has no "start" raises a KeyError, which its handler for HttpError does
    not convert, before any update reaches the provider. *)
Theorem update_calendar_event_missing_start
    (get_calendar_service : Outcome unit)
    (events_get : string -> Outcome EventResource)
    (events_update : string -> EventResource -> Outcome (option string))
    (id : string) (summary start_time end_time : option string) (event : EventResource) :
  get_calendar_service = Return tt ->
  events_get id = Return event ->
  event_start event = None ->
  truthy start_time = true ->
  update_calendar_event get_calendar_service events_get events_update
    id summary start_time end_time
  = Raise (Exception "KeyError" "'start'").
Proof.
  intros Hs Hget Hstart Htime. unfold update_calendar_event.
  rewrite Hs. cbn [bind]. rewrite Hget. cbn [bind].
  unfold updated_event, set_dateTime. by rewrite Hstart, Htime.
Qed.

Lemma update_calendar_event_missing_start_witness :
  update_calendar_event (Return tt)
    (fun _ => Return {| event_id := Some "e9"; event_summary := Some "Draft";
                        event_start := None; event_end := None; event_other := [] |})
    (fun _ _ => Return (Some "https://calendar.example.com/e9"))
    "e9" None (Some "2025-07-01T17:00:00") None
  = Raise (Exception "KeyError" "'start'").
Proof.
  apply (update_calendar_event_missing_start (Return tt) _ _ "e9" None
           (Some "2025-07-01T17:00:00") None
           {| event_id := Some "e9"; event_summary := Some "Draft";
              event_start := None; event_end := None; event_other := [] |}
           eq_refl eq_refl eq_refl eq_refl).
Defined.

(** ** ContactAgent.py *)

(** X13: [get_contacts] raises in two cases only, and passes the exception on
    unchanged: the session cannot be obtained, or the listing call fails with
    an exception that is no HttpError. *)
Theorem get_contacts_raises_iff
    (str_lower : string -> string)
    (get_people_service : Outcome unit)
    (connections_list : Outcome (option (list Person)))
    (query : string) (e : exn) :
  get_contacts str_lower get_people_service connections_list query = Raise e <->
  get_people_service = Raise e \/
  (get_people_service = Return tt /\ connections_list = Raise e /\ is_HttpError e = false).
Proof.
  unfold get_contacts.
  destruct get_people_service as [[]|e1]; cbn [bind].
  - destruct connections_list as [connections|e2]; cbn [bind try_except_HttpError].
    + rewrite get_contacts_loop_filter. cbn [bind].
      split; [discriminate|]. intros [|(_ & ? & _)]; discriminate.
    + destruct (is_HttpError e2) eqn:Hhttp.
      * split; [discriminate|].
        intros [|(_ & [= ->] & Hfalse)]; [discriminate|congruence].
      * split.
        -- intros [= ->]. by right.
        -- by intros [|(_ & [= ->] & _)].
  - split.
    + intros [= ->]. by left.
    + intros [[= ->]|(? & _)]; [done|discriminate].
Qed.

Lemma contains_empty (t : string) : contains "" t = true.
Proof. by destruct t. Qed.

Lemma filter_matches_empty (str_lower : string -> string) (all_contacts : list Person) :
  str_lower "" = "" ->
  List.filter (person_matches str_lower (str_lower "")) all_contacts
  = List.filter has_names all_contacts.
Proof.
  intros Hempty. apply filter_ext. intros person. unfold person_matches, has_names.
  rewrite Hempty.
  destruct (default [] (names person)) as [|n ns]; [done|].
  simpl. by rewrite contains_empty.
Qed.

(** X14: with the empty query [get_contacts] returns the records of all the
    contacts that have a names entry, and never one of a contact without
    names; "No contacts found matching that query." is the answer when no
    contact has a name.  Of [str.lower] this uses that it leaves the empty
    text empty. *)
Theorem get_contacts_empty_query
    (str_lower : string -> string)
    (get_people_service : Outcome unit)
    (connections_list : Outcome (option (list Person)))
    (connections : option (list Person)) :
  str_lower "" = "" ->
  get_people_service = Return tt ->
  connections_list = Return connections ->
  get_contacts str_lower get_people_service connections_list ""
  = Return match List.filter has_names (default [] connections) with
           | [] => PStr "No contacts found matching that query."
           | found => PList (map record_of found)
           end.
Proof.
  intros Hempty Hs Hlist. unfold get_contacts.
  rewrite Hs, Hlist. cbn [bind try_except_HttpError].
  rewrite get_contacts_loop_filter, (filter_matches_empty _ _ Hempty). cbn [bind app].
  by destruct (List.filter has_names (default [] connections)).
Qed.

Lemma get_contacts_empty_query_witness :
  get_contacts lower (Return tt) address_book ""
  = Return (PList [PDict [("name", PStr "Jane Doe"); ("phones", PList []);
                          ("emails", PList [PStr "jane@example.com"])];
                   PDict [("name", PStr "Rahul Verma"); ("phones", PList [PStr "+911234567890"]);
                          ("emails", PList [])]]).
Proof.
  apply (get_contacts_empty_query lower (Return tt) address_book _ eq_refl eq_refl eq_refl).
Defined.

Lemma lower_ascii_idempotent (c : ascii) : lower_ascii (lower_ascii c) = lower_ascii c.
Proof. destruct c as [[] [] [] [] [] [] [] []]; reflexivity. Qed.

Lemma lower_idempotent (s : string) : lower (lower s) = lower s.
Proof.
  induction s as [|c s IH]; simpl; [done|]. by rewrite lower_ascii_idempotent, IH.
Qed.

(** X15: [get_contacts] reads its query through [str.lower] only: two queries
    with the same lower-case form give the same result, and, [str.lower]
    being idempotent, so do a query and its lower-case form. *)
Theorem get_contacts_ignores_query_case
    (str_lower : string -> string)
    (get_people_service : Outcome unit)
    (connections_list : Outcome (option (list Person)))
    (query : string) :
  (forall query', str_lower query' = str_lower query ->
     get_contacts str_lower get_people_service connections_list query'
     = get_contacts str_lower get_people_service connections_list query) /\
  ((forall s, str_lower (str_lower s) = str_lower s) ->
   get_contacts str_lower get_people_service connections_list (str_lower query)
   = get_contacts str_lower get_people_service connections_list query).
Proof.
  assert (Hsame : forall q q', str_lower q' = str_lower q ->
            get_contacts str_lower get_people_service connections_list q'
            = get_contacts str_lower get_people_service connections_list q).
  { intros q q' Hq. unfold get_contacts. by rewrite Hq. }
  split; [by apply Hsame|]. intros Hidem. apply Hsame. apply Hidem.
Qed.

Lemma get_contacts_ignores_query_case_witness :
  get_contacts lower (Return tt) address_book (lower "RAHUL")
  = get_contacts lower (Return tt) address_book "RAHUL".
Proof.
  apply (proj2 (get_contacts_ignores_query_case lower (Return tt) address_book "RAHUL")).
  apply lower_idempotent.
Defined.

(** X16: [add_or_update_contact] answers with a text when the provider
    reports the created contact with a name, and for an HttpError; an answer
    of the provider without a names entry, or with an empty one, makes it
    raise (TypeError, IndexError) although the contact was created, and an
    empty phone or email is sent as none. *)
Theorem add_or_update_contact_outcomes
    (get_people_service : Outcome unit)
    (createContact : NewContact -> Outcome (option (list (option string))))
    (name : string) (phone email : option string) :
  get_people_service = Return tt ->
  let sent := {| new_names := [name];
                 new_phoneNumbers := if truthy phone then [default "" phone] else [];
                 new_emailAddresses := if truthy email then [default "" email] else [] |} in
  let result := add_or_update_contact get_people_service createContact name phone email in
  (forall n ns, createContact sent = Return (Some (n :: ns)) ->
     result = Return ("Successfully created/updated contact: " +:+ fmt_optional n)) /\
  (forall msg, createContact sent = Raise (HttpError msg) ->
     result = Return ("An error occurred: " +:+ msg)) /\
  (createContact sent = Return None ->
     result = Raise (Exception "TypeError" "'NoneType' object is not subscriptable")) /\
  (createContact sent = Return (Some []) ->
     result = Raise (Exception "IndexError" "list index out of range")) /\
  (forall e, createContact sent = Raise e -> is_HttpError e = false -> result = Raise e).
Proof.
  intros Hs sent result. unfold result, add_or_update_contact, value_list. rewrite Hs.
  cbn [bind]. fold sent.
  repeat split.
  - intros n ns ->. done.
  - intros msg ->. done.
  - intros ->. done.
  - intros ->. done.
  - intros e -> He. cbn [bind try_except_HttpError]. by rewrite He.
Qed.

Lemma add_or_update_contact_outcomes_witness :
  add_or_update_contact (Return tt) (fun _ => Return None) "Ankit Singh" (Some "") None
  = Raise (Exception "TypeError" "'NoneType' object is not subscriptable").
Proof.
  apply (proj1 (proj2 (proj2 (add_or_update_contact_outcomes (Return tt)
           (fun _ => Return None) "Ankit Singh" (Some "") None eq_refl)))).
  reflexivity.
Defined.

(** ** The front ends of the supervisor *)

Lemma no_kwargs_no_call (m : BaseMessage) :
  no_additional_kwargs m = true -> has_function_call m = false.
Proof.
  unfold no_additional_kwargs, has_function_call. intros Hempty.
  apply bool_decide_eq_true_1 in Hempty. rewrite Hempty.
  apply bool_decide_eq_false_2. rewrite lookup_empty. by intros [? ?].
Qed.

Lemma call_has_kwargs (m : BaseMessage) :
  has_function_call m = true -> no_additional_kwargs m = false.
Proof.
  intros Hfc. destruct (no_additional_kwargs m) eqn:Hk; [|done].
  apply no_kwargs_no_call in Hk. congruence.
Qed.

(** X17: the response stream of [invoke_agent] never carries more than one
    event. *)
Theorem response_stream_at_most_one_event
    (SUPERVISOR_SYSTEM_PROMPT : string)
    (model_invoke : list BaseMessage -> Outcome BaseMessage)
    (tool_node : AgentState -> Outcome AgentState)
    (fuel : nat) (chat_request : ChatRequest) (events : list ServerEvent) :
  invoke_agent SUPERVISOR_SYSTEM_PROMPT model_invoke tool_node fuel chat_request = Some events ->
  length events <= 1.
Proof.
  unfold invoke_agent. generalize (stream SUPERVISOR_SYSTEM_PROMPT model_invoke tool_node fuel
                                     {| messages := reconstruct_messages chat_request |}).
  intros r. revert events.
  induction r as [final|e| |key value rest IH]; intros events; simpl.
  - intros [= <-]. simpl. lia.
  - intros [= <-]. simpl. lia.
  - discriminate.
  - destruct key; [|apply IH].
    destruct (last_message _) as [m|e]; [|intros [= <-]; simpl; lia].
    destruct (no_additional_kwargs m); [intros [= <-]; simpl; lia|apply IH].
Qed.

Lemma response_stream_at_most_one_event_witness :
  length [content_event "No upcoming events found for today."] <= 1.
Proof.
  apply (response_stream_at_most_one_event "" one_round_model constant_tool_node 3
           example_request).
  reflexivity.
Defined.

Section FrontEndFacts.

Variable SYSTEM_PROMPT : string.
Variable model_invoke : list BaseMessage -> Outcome BaseMessage.
Variable tool_node : AgentState -> Outcome AgentState.

Local Abbreviation go := (run SYSTEM_PROMPT model_invoke tool_node).

(** What [event_stream] sends for a run, by the way the run ends. *)
Lemma event_stream_by_ending fuel : forall state,
  match ending (go fuel Agent state) with
  | Done final =>
    forall m, last (messages final) = Some m ->
      event_stream (go fuel Agent state)
      = Some (if no_additional_kwargs m then [content_event (content m)] else [])
  | Crashed e =>
    event_stream (go fuel Agent state)
    = Some [error_event ("An error occurred while processing your request: " +:+ exn_str e)]
  | _ => event_stream (go fuel Agent state) = None
  end.
Proof.
  induction fuel as [fuel IH] using lt_wf_ind. intros state.
  destruct fuel as [|fuel]; [done|].
  rewrite run_agent_unfold.
  destruct (model_invoke _) as [reply|e]; [|done].
  cbn [ending event_stream messages last_message last].
  destruct (has_function_call reply) eqn:Hfc.
  - rewrite (call_has_kwargs _ Hfc).
    destruct fuel as [|fuel]; [done|]. simpl.
    destruct (tool_node _) as [result|e]; [|done].
    cbn [ending event_stream]. apply (IH fuel). lia.
  - cbn [ending]. intros m Hm.
    unfold apply_update, reducer in Hm. simpl in Hm. rewrite last_snoc in Hm.
    injection Hm as <-. by destruct (no_additional_kwargs reply).
Qed.

(** What run_super.py prints for a run, by what [event_stream] sends. *)
Lemma run_super_by_stream fuel : forall state final_answer,
  match event_stream (go fuel Agent state) with
  | Some [content_event text] =>
    run_super (go fuel Agent state) final_answer = Some (print_final text)
  | Some [] => run_super (go fuel Agent state) final_answer = Some (print_final final_answer)
  | Some _ =>
    exists e, ending (go fuel Agent state) = Crashed e /\
      run_super (go fuel Agent state) final_answer
      = Some (execution_error (execution_error_text e))
  | None => run_super (go fuel Agent state) final_answer = None
  end.
Proof.
  induction fuel as [fuel IH] using lt_wf_ind. intros state final_answer.
  destruct fuel as [|fuel]; [done|].
  rewrite run_agent_unfold.
  destruct (model_invoke _) as [reply|e]; [|by eexists].
  cbn [ending event_stream run_super messages last_message last].
  destruct (has_function_call reply) eqn:Hfc.
  - rewrite (call_has_kwargs _ Hfc).
    destruct fuel as [|fuel]; [done|]. simpl.
    destruct (tool_node _) as [result|e]; [|by eexists].
    cbn [ending event_stream run_super]. apply (IH fuel). lia.
  - by destruct (no_additional_kwargs reply).
Qed.

(** The action node runs on a request only. *)
Lemma steps_action_on_request c1 c2 :
  steps SYSTEM_PROMPT model_invoke tool_node c1 c2 ->
  (forall st, c1 = (At Action, st) ->
     exists r, last (messages st) = Some r /\ has_function_call r = true) ->
  forall st, c2 = (At Action, st) ->
    exists r, last (messages st) = Some r /\ has_function_call r = true.
Proof.
  induction 1 as [c|c1 c2 c3 Hstep _ IH]; intros Hc1; [done|].
  apply IH. intros st ->.
  inversion Hstep as [state update Hcall Hgo|state update Hcall Hgo|state update Htool]; subst.
  apply call_model_inv in Hcall as (reply & _ & ->).
  rewrite should_continue_reply in Hgo. injection Hgo as Hfc.
  exists reply. unfold apply_update, reducer. simpl. by rewrite last_snoc.
Qed.

(** The scan of the streamed events keeps the final reply. *)
Lemma scan_events_final fuel : forall state final_answer final m,
  (forall st update, tool_node st = Return update -> messages update <> []) ->
  ending (go fuel Agent state) = Done final ->
  last (messages final) = Some m ->
  no_additional_kwargs m = true ->
  type m <> human ->
  scan_events (go fuel Agent state) final_answer = Some (Return (content m)).
Proof.
  induction fuel as [fuel IH] using lt_wf_ind.
  intros state final_answer final m Hne Hend Hlast Hk Hty.
  destruct fuel as [|fuel]; [discriminate|].
  rewrite run_agent_unfold in Hend |- *.
  destruct (model_invoke _) as [reply|e]; [|discriminate].
  cbn [ending] in Hend. cbn [scan_events messages last_message last].
  destruct (has_function_call reply) eqn:Hfc.
  - assert (Hrest : forall acc,
      scan_events (go fuel Action (apply_update state {| messages := [reply] |})) acc
      = Some (Return (content m))).
    { intros acc. destruct fuel as [|fuel]; [discriminate|]. simpl in Hend |- *.
      destruct (tool_node _) as [result|e] eqn:Htool; [|discriminate].
      cbn [ending] in Hend. cbn [scan_events].
      pose proof (Hne _ _ Htool) as Hresult. unfold last_message.
      destruct (last (messages result)) as [t|] eqn:Ht; [|by apply last_None in Ht].
      destruct (type t); try (by apply (IH fuel ltac:(lia) _ _ final));
        destruct (no_additional_kwargs t); by apply (IH fuel ltac:(lia) _ _ final). }
    rewrite (call_has_kwargs _ Hfc). by destruct (type reply).
  - injection Hend as <-.
    unfold apply_update, reducer in Hlast. simpl in Hlast. rewrite last_snoc in Hlast.
    injection Hlast as ->. rewrite Hk. by destruct (type m).
Qed.

End FrontEndFacts.

(** X18: what [event_stream] sends is decided by the way the supervisor's run
    ends.  A run that raises gives one error event with the exception's text;
    a run that ends on a reply with empty [additional_kwargs] gives one
    content event with that reply's content, and no request met on the way is
    ever sent as the answer. *)
Theorem event_stream_reports_the_ending
    (SUPERVISOR_SYSTEM_PROMPT : string)
    (model_invoke : list BaseMessage -> Outcome BaseMessage)
    (tool_node : AgentState -> Outcome AgentState)
    (fuel : nat) (inputs : AgentState) :
  (forall e,
     invoke SUPERVISOR_SYSTEM_PROMPT model_invoke tool_node fuel inputs = Some (Raise e) ->
     event_stream (stream SUPERVISOR_SYSTEM_PROMPT model_invoke tool_node fuel inputs)
     = Some [error_event ("An error occurred while processing your request: " +:+ exn_str e)]) /\
  (forall final m,
     invoke SUPERVISOR_SYSTEM_PROMPT model_invoke tool_node fuel inputs = Some (Return final) ->
     last (messages final) = Some m ->
     no_additional_kwargs m = true ->
     event_stream (stream SUPERVISOR_SYSTEM_PROMPT model_invoke tool_node fuel inputs)
     = Some [content_event (content m)]).
Proof.
  pose proof (event_stream_by_ending SUPERVISOR_SYSTEM_PROMPT model_invoke tool_node
                fuel inputs) as H.
  unfold invoke, stream. split.
  - intros e Hinv. destruct (ending _); try discriminate. by injection Hinv as ->.
  - intros final m Hinv Hlast Hk. destruct (ending _); try discriminate.
    injection Hinv as ->. by rewrite (H m Hlast), Hk.
Qed.

Lemma event_stream_reports_the_ending_witness :
  event_stream (stream "" one_round_model constant_tool_node 3
                  {| messages := reconstruct_messages example_request |})
  = Some [content_event "No upcoming events found for today."].
Proof.
  eapply (proj2 (event_stream_reports_the_ending "" one_round_model constant_tool_node 3
                   {| messages := reconstruct_messages example_request |})
            _ (AIMessage "No upcoming events found for today.")).
  - reflexivity.
  - reflexivity.
  - reflexivity.
Defined.

(** X19: run_super.py and the invoke endpoint agree on every run of the
    supervisor: the script prints as final response the text the endpoint
    sends as content (nothing when that text is empty, or when the endpoint
    sends no event), and prints the error of a run for which the endpoint
    sends an error event. *)
Theorem run_super_agrees_with_event_stream
    (SUPERVISOR_SYSTEM_PROMPT : string)
    (model_invoke : list BaseMessage -> Outcome BaseMessage)
    (tool_node : AgentState -> Outcome AgentState)
    (fuel : nat) (inputs : AgentState) :
  let r := stream SUPERVISOR_SYSTEM_PROMPT model_invoke tool_node fuel inputs in
  (forall text, event_stream r = Some [content_event text] ->
     run_super r "" = Some (print_final text)) /\
  (event_stream r = Some [] -> run_super r "" = Some nothing) /\
  (forall text, event_stream r = Some [error_event text] ->
     exists e, text = "An error occurred while processing your request: " +:+ exn_str e /\
               run_super r "" = Some (execution_error (execution_error_text e))) /\
  (event_stream r = None -> run_super r "" = None).
Proof.
  intros r.
  pose proof (run_super_by_stream SUPERVISOR_SYSTEM_PROMPT model_invoke tool_node
                fuel inputs "") as Hsuper.
  pose proof (event_stream_by_ending SUPERVISOR_SYSTEM_PROMPT model_invoke tool_node
                fuel inputs) as Hstream.
  fold (stream SUPERVISOR_SYSTEM_PROMPT model_invoke tool_node fuel inputs) in Hsuper, Hstream.
  fold r in Hsuper, Hstream.
  repeat split.
  - intros text Hev. by rewrite Hev in Hsuper.
  - intros Hev. by rewrite Hev in Hsuper.
  - intros text Hev. rewrite Hev in Hsuper. destruct Hsuper as (e & Hend & Hprint).
    exists e. split; [|done]. rewrite Hend in Hstream. rewrite Hstream in Hev.
    by injection Hev.
  - intros Hev. by rewrite Hev in Hsuper.
Qed.

Lemma run_super_agrees_with_event_stream_witness :
  run_super (stream "" one_round_model constant_tool_node 3
               {| messages := [HumanMessage "What's on my calendar today?"] |}) ""
  = Some (final_response "No upcoming events found for today.").
Proof.
  apply (proj1 (run_super_agrees_with_event_stream "" one_round_model constant_tool_node 3
                  {| messages := [HumanMessage "What's on my calendar today?"] |})
           "No upcoming events found for today.").
  reflexivity.
Defined.

(** X20: the action node is run only on a transcript whose last message
    carries a function call: no tool is executed that the model did not just
    request. *)
Theorem action_only_on_request
    (SYSTEM_PROMPT : string)
    (model_invoke : list BaseMessage -> Outcome BaseMessage)
    (tool_node : AgentState -> Outcome AgentState)
    (inputs state : AgentState) :
  steps SYSTEM_PROMPT model_invoke tool_node (At Agent, inputs) (At Action, state) ->
  exists request,
    last (messages state) = Some request /\ has_function_call request = true.
Proof.
  intros Hsteps.
  by apply (steps_action_on_request _ _ _ _ _ Hsteps ltac:(by intros st [=]) state).
Qed.

Lemma action_only_on_request_witness :
  exists request,
    last (messages {| messages := [HumanMessage "What's on my calendar today?";
                                    request_message "run_calendar_agent" (Some "call-1")] |})
    = Some request /\ has_function_call request = true.
Proof.
  apply (action_only_on_request "" one_round_model constant_tool_node
           {| messages := [HumanMessage "What's on my calendar today?"] |}).
  eapply steps_cons; [|apply steps_refl].
  apply (step_request "" one_round_model constant_tool_node
           {| messages := [HumanMessage "What's on my calendar today?"] |}
           {| messages := [request_message "run_calendar_agent" (Some "call-1")] |});
    reflexivity.
Defined.

(** X21: the branch of [run_email_agent] that would return the output of the
    last tool call is never taken, the final state having no key 'action':
    the function returns what [run_contact_agent] and [run_calendar_agent]
    return, the content of the last message. *)
Theorem run_email_agent_returns_last_message
    (environ : gmap string string)
    (model_invoke : list BaseMessage -> Outcome BaseMessage)
    (SYSTEM_PROMPT : string) (tool_node : AgentState -> Outcome AgentState)
    (fuel : nat) (query : string) :
  run_email_agent environ model_invoke SYSTEM_PROMPT tool_node fuel query
  = run_contact_agent environ model_invoke SYSTEM_PROMPT tool_node fuel query /\
  forall final,
    create_and_invoke environ model_invoke SYSTEM_PROMPT tool_node fuel query
    = Some (Return final) ->
    run_email_agent environ model_invoke SYSTEM_PROMPT tool_node fuel query
    = Some (final_text final).
Proof.
  unfold run_email_agent, run_contact_agent, run_invoke_agent.
  split.
  - by destruct (create_and_invoke _ _ _ _ _ _) as [[final|e]|].
  - by intros final ->.
Qed.

Lemma run_email_agent_returns_last_message_witness :
  run_email_agent example_environ one_round_model "" constant_tool_node 3
    "What's on my calendar today?"
  = Some (Return "No upcoming events found for today.").
Proof.
  apply (proj2 (run_email_agent_returns_last_message example_environ one_round_model ""
                  constant_tool_node 3 "What's on my calendar today?")
           {| messages := [ HumanMessage "What's on my calendar today?";
                            request_message "run_calendar_agent" (Some "call-1");
                            {| type := tool; content := "No upcoming events found for today.";
                               additional_kwargs := ∅; action_ref := None |};
                            AIMessage "No upcoming events found for today." ] |}).
  reflexivity.
Defined.

(** X22: [run_search_agent] and [run_content_creator_agent] return the
    content of the reply that ends the run, when that reply has empty
    [additional_kwargs] (the API key being set and no update of the action
    node being empty): no earlier message is returned in its place. *)
Theorem run_search_agent_returns_final_reply
    (environ : gmap string string)
    (model_invoke : list BaseMessage -> Outcome BaseMessage)
    (SYSTEM_PROMPT : string) (tool_node : AgentState -> Outcome AgentState)
    (fuel : nat) (query : string) (final : AgentState) (m : BaseMessage) :
  is_Some (environ !! "GEMINI_API_KEY") ->
  (forall st update, tool_node st = Return update -> messages update <> []) ->
  invoke SYSTEM_PROMPT model_invoke tool_node fuel {| messages := [HumanMessage query] |}
  = Some (Return final) ->
  last (messages final) = Some m ->
  no_additional_kwargs m = true ->
  type m <> human ->
  run_search_agent environ model_invoke SYSTEM_PROMPT tool_node fuel query
  = Some (Return (content m)) /\
  run_content_creator_agent environ model_invoke SYSTEM_PROMPT tool_node fuel query
  = Some (Return (content m)).
Proof.
  intros [key Hkey] Hne Hinv Hlast Hk Hty.
  unfold run_search_agent, run_content_creator_agent, run_stream_agent, environ_get.
  rewrite Hkey. unfold invoke, stream in *.
  destruct (ending _) as [final'| | |] eqn:Hend; try discriminate.
  injection Hinv as ->.
  by rewrite (scan_events_final _ _ _ _ _ _ _ _ Hne Hend Hlast Hk Hty).
Qed.

Lemma run_search_agent_returns_final_reply_witness :
  run_search_agent example_environ one_round_model "" constant_tool_node 3 "What is LangGraph?"
  = Some (Return "No upcoming events found for today.") /\
  run_content_creator_agent example_environ one_round_model "" constant_tool_node 3
    "What is LangGraph?"
  = Some (Return "No upcoming events found for today.").
Proof.
  eapply (run_search_agent_returns_final_reply example_environ one_round_model ""
            constant_tool_node 3 "What is LangGraph?" _
            (AIMessage "No upcoming events found for today.")).
  - by eexists.
  - intros st update [= <-]. discriminate.
  - reflexivity.
  - reflexivity.
  - reflexivity.
  - discriminate.
Defined.

(** X23: the transcript [invoke_agent] hands to the supervisor is plain,
    whatever JSON values the history holds.  With message constructors that
    return messages of the class asked for and without [additional_kwargs]:
    whenever the reconstruction builds the transcript (it raises when a
    constructor refuses a content), every message is a human or an ai message
    with empty [additional_kwargs], the last one is the query, there is at
    most one message per history entry besides it, and the transcript holds
    no action request and no tool result (its chain is valid).  It is built
    whenever the constructors take texts and every human and ai entry has a
    text, or nothing, as content. *)
Theorem reconstructed_transcript_is_plain
    (make_message : MessageType -> Wire.Json -> Outcome BaseMessage)
    (chat_request : Wire.ChatRequest) :
  Wire.constructs_plain make_message ->
  (forall ms, Wire.reconstruct_messages make_message chat_request = Return ms ->
     Forall (fun m => (type m = human \/ type m = ai) /\ additional_kwargs m = ∅) ms /\
     last ms = Some (HumanMessage (Wire.query chat_request)) /\
     length ms <= S (length (Wire.history chat_request)) /\
     request_refs ms = [] /\
     valid_chain ms) /\
  ((forall t s, make_message t (Wire.JString s) = Return (Wire.text_message t s)) ->
   Forall (fun msg => Wire.is_human_or_ai msg = true -> Wire.has_text_content msg)
          (Wire.history chat_request) ->
   returns (Wire.reconstruct_messages make_message chat_request)).
Proof.
  intros Hctor. split.
  - intros ms. rewrite wire_reconstruct_messages.
    set (kept := List.filter Wire.is_human_or_ai (Wire.history chat_request)).
    destruct (Wire.entry_messages make_message kept) as [built|e] eqn:Hbuilt;
      simpl; [|done].
    intros [= <-].
    destruct (wire_entry_messages_plain make_message kept Hctor built Hbuilt)
      as [Hlen Hbuilt_plain].
    assert (Hplain : Forall (fun m => (type m = human \/ type m = ai) /\
                                      additional_kwargs m = ∅)
                       (built ++ [HumanMessage (Wire.query chat_request)])).
    { apply Forall_app. split; [done|]. apply Forall_singleton. split; [by left|done]. }
    split; [exact Hplain|]. split; [apply last_snoc|]. split.
    { rewrite length_app, Hlen. simpl.
      pose proof (filter_length Wire.is_human_or_ai (Wire.history chat_request)) as Hle.
      fold kept in Hle. lia. }
    split.
    + unfold request_refs.
      induction Hplain as [|m ms [_ Hm] _ IH]; simpl; [done|].
      assert (Hfc : has_function_call m = false).
      { apply no_kwargs_no_call. unfold no_additional_kwargs. by apply bool_decide_eq_true_2. }
      by rewrite Hfc.
    + intros i m Hi Htool. exfalso.
      apply list_elem_of_lookup_2 in Hi.
      rewrite Forall_forall in Hplain. destruct (Hplain m Hi) as [[Hh|Ha] _]; congruence.
  - intros Htext Hall. rewrite wire_reconstruct_messages.
    rewrite (wire_entry_messages_built make_message _ Wire.text_of_entry); [by eexists|].
    apply Forall_forall. intros msg Hin.
    apply list_elem_of_In, List.filter_In in Hin as [Hin Hkept].
    rewrite Forall_forall in Hall.
    destruct (Hall msg (proj2 (list_elem_of_In _ _) Hin) Hkept) as [s Hs].
    unfold Wire.entry_message, Wire.text_of_entry. by rewrite Hs, Htext.
Qed.

Lemma reconstructed_transcript_is_plain_witness :
  exists ms,
    Wire.reconstruct_messages validating_message mixed_request = Return ms /\
    length ms = 3 /\
    Forall (fun m => (type m = human \/ type m = ai) /\ additional_kwargs m = ∅) ms /\
    request_refs ms = [] /\
    valid_chain ms.
Proof.
  eexists. split; [reflexivity|]. split; [reflexivity|].
  assert (Hctor : Wire.constructs_plain validating_message).
  { intros t c m. destruct c; simpl; try discriminate. intros [= <-]. by split. }
  destruct (proj1 (reconstructed_transcript_is_plain validating_message mixed_request Hctor)
              _ eq_refl) as (Hplain & _ & _ & Hrefs & Hvalid).
  by split; [|split].
Defined.

(** ** The credential flow *)

(** X24: the service constructors reuse a stored token.  A valid stored token
    is used as it is, with no refresh, no browser flow and no write to the
    token file; and after a call that succeeded, the next call finds the
    token file as that call left it, leaves it so, and succeeds again (given
    that the file round-trips credentials and that a refresh or a login
    yields valid ones). *)
Theorem get_service_reuses_token
    (from_authorized_user_file : string -> Outcome Credentials)
    (to_json : Credentials -> string)
    (refresh : Credentials -> Outcome Credentials)
    (run_local_server : Outcome Credentials)
    (build : Credentials -> Outcome unit) :
  (forall content c refresh' flow',
     from_authorized_user_file content = Return c ->
     cred_valid c = true ->
     get_service from_authorized_user_file to_json refresh' flow' build (Some content)
     = (Some content, build c)) /\
  ((forall c, from_authorized_user_file (to_json c) = Return c) ->
   (forall c c', refresh c = Return c' -> cred_valid c' = true) ->
   (forall c, run_local_server = Return c -> cred_valid c = true) ->
   forall token_file token_file',
     get_service from_authorized_user_file to_json refresh run_local_server build token_file
     = (token_file', Return tt) ->
     get_service from_authorized_user_file to_json refresh run_local_server build token_file'
     = (token_file', Return tt)).
Proof.
  split.
  - intros content c refresh' flow' Hread Hvalid. unfold get_service.
    rewrite Hread. cbn [bind]. by rewrite Hvalid.
  - intros Hround Hrefresh Hflow token_file token_file' Hfirst.
    assert (Hrenewed : forall creds c',
      renew refresh run_local_server creds = Return c' ->
      build c' = Return tt ->
      get_service from_authorized_user_file to_json refresh run_local_server build
        (Some (to_json c')) = (Some (to_json c'), Return tt)).
    { intros creds c' Hrenew Hbuild. unfold get_service. rewrite Hround. cbn [bind].
      assert (Hvalid : cred_valid c' = true).
      { unfold renew in Hrenew. destruct creds as [c|]; [|by apply Hflow].
        destruct (cred_expired c && truthy (cred_refresh_token c)); eauto. }
      by rewrite Hvalid, Hbuild. }
    unfold get_service in Hfirst.
    destruct token_file as [content|].
    + destruct (from_authorized_user_file content) as [c|e] eqn:Hread;
        cbn [bind] in Hfirst; [|by injection Hfirst].
      destruct (cred_valid c) eqn:Hvalid.
      * injection Hfirst as <- Hbuild. unfold get_service.
        rewrite Hread. cbn [bind]. by rewrite Hvalid, Hbuild.
      * destruct (renew refresh run_local_server (Some c)) as [c'|e] eqn:Hrenew;
          [|by injection Hfirst].
        injection Hfirst as <- Hbuild. by eapply Hrenewed.
    + cbn [bind] in Hfirst.
      destruct (renew refresh run_local_server None) as [c'|e] eqn:Hrenew;
        [|by injection Hfirst].
      injection Hfirst as <- Hbuild. by eapply Hrenewed.
Qed.

Lemma get_service_reuses_token_witness :
  get_service example_from_file example_to_json example_refresh example_flow
    (fun _ => Return tt) (Some "Ve+r1")
  = (Some "Ve+r1", Return tt).
Proof.
  apply (proj2 (get_service_reuses_token example_from_file example_to_json example_refresh
                  example_flow (fun _ => Return tt))
           ltac:(by intros [[] [] [r|]])
           ltac:(by intros c c' [= <-])
           ltac:(by intros c [= <-])
           (Some "vE+r1")).
  reflexivity.
Defined.

(** An HttpError of the insert call is answered as a text; a timeout is not. *)
Lemma create_calendar_event_handler_witness :
  create_calendar_event (Return tt)
    (fun _ => Raise (Exception "TimeoutError" "The read operation timed out"))
    "Project Discussion" "2025-07-01T15:00:00" "2025-07-01T16:00:00" None
    (Some ["jane.d@example.com"])
  = Raise (Exception "TimeoutError" "The read operation timed out").
Proof.
  apply (create_calendar_event_handler (Return tt) _ "Project Discussion"
           "2025-07-01T15:00:00" "2025-07-01T16:00:00" None (Some ["jane.d@example.com"])
           (Exception "TimeoutError" "The read operation timed out") eq_refl eq_refl).
Defined.

(** A subject that already begins with "RE:" is kept. *)
Lemma reply_subject_prefixed_once_witness :
  reply_subject_of "RE: Lunch on Friday" = "RE: Lunch on Friday".
Proof.
  apply (proj2 (proj2 (reply_subject_prefixed_once "RE: Lunch on Friday"))).
  reflexivity.
Defined.

(** A timeout of the listing call leaves [get_contacts] as it is. *)
Lemma get_contacts_raises_iff_witness :
  get_contacts lower (Return tt) (Raise (Exception "TimeoutError" "timed out")) "jane"
  = Raise (Exception "TimeoutError" "timed out").
Proof.
  apply (proj2 (get_contacts_raises_iff lower (Return tt)
                  (Raise (Exception "TimeoutError" "timed out")) "jane"
                  (Exception "TimeoutError" "timed out"))).
  right. repeat split; reflexivity.
Defined.

(** ** The loop under its budget *)

Lemma executions_budgeted (n : Node) (r : Run) : executions n (budgeted r) = executions n r.
Proof. induction r as [| | |key value rest IH]; simpl; [done..|]. by rewrite IH. Qed.

Lemma ending_budgeted (r : Run) :
  ending (budgeted r)
  = match ending r with
    | Pending => Crashed LoopBudgetExceededError
    | other => other
    end.
Proof. induction r as [| | |key value rest IH]; simpl; done. Qed.

Lemma event_stream_budgeted (r : Run) :
  event_stream (budgeted r)
  = Some (default [error_event ("An error occurred while processing your request: "
                                +:+ exn_str LoopBudgetExceededError)]
            (event_stream r)).
Proof.
  induction r as [| | |key value rest IH]; simpl; [done..|].
  destruct key; [|done]. destruct (last_message _) as [m|e]; [|done].
  by destruct (no_additional_kwargs m).
Qed.

Lemma validate_query (query : string) :
  validate [("query", true)] ({[ "query" := query ]} : gmap string string) = true.
Proof.
  unfold validate. rewrite map_to_list_singleton. cbn [forallb map fst snd negb orb].
  rewrite lookup_singleton_eq, bool_decide_eq_true_2 by eauto. reflexivity.
Qed.

Section BudgetFacts.

Variable SYSTEM_PROMPT : string.
Variable model_invoke : list BaseMessage -> Outcome BaseMessage.
Variable tool_node : AgentState -> Outcome AgentState.

Local Abbreviation machine := (run SYSTEM_PROMPT model_invoke tool_node).

Lemma run_executions_le fuel : forall node state,
  executions Agent (machine fuel node state) + executions Action (machine fuel node state)
  <= fuel.
Proof.
  induction fuel as [|fuel IH]; intros node state; [simpl; lia|].
  destruct node.
  - rewrite run_agent_unfold. destruct (model_invoke _) as [reply|e]; [|simpl; lia].
    destruct (has_function_call reply); simpl.
    + specialize (IH Action (apply_update state {| messages := [reply] |})). lia.
    + lia.
  - simpl. destruct (tool_node state) as [update|e]; [|simpl; lia]. simpl.
    specialize (IH Agent (apply_update state update)). lia.
Qed.

Lemma run_pending_executions fuel : forall node state,
  ending (machine fuel node state) = Pending ->
  executions Agent (machine fuel node state) + executions Action (machine fuel node state)
  = fuel.
Proof.
  induction fuel as [|fuel IH]; intros node state; [done|].
  destruct node.
  - rewrite run_agent_unfold. destruct (model_invoke _) as [reply|e]; [|discriminate].
    destruct (has_function_call reply); simpl; [|discriminate].
    intros Hend. specialize (IH _ _ Hend). lia.
  - simpl. destruct (tool_node state) as [update|e]; [|discriminate]. simpl.
    intros Hend. specialize (IH _ _ Hend). lia.
Qed.

(** When neither the model nor the action node raises, no step of the run
    does. *)
Lemma run_never_crashes fuel : forall node state e,
  (forall ms, returns (model_invoke ms)) ->
  (forall st, returns (tool_node st)) ->
  ending (machine fuel node state) <> Crashed e.
Proof.
  induction fuel as [|fuel IH]; intros node state e Hmodel Htool; [done|].
  destruct node.
  - rewrite run_agent_unfold. destruct (Hmodel (SystemMessage SYSTEM_PROMPT :: messages state))
      as [reply ->].
    destruct (has_function_call reply); simpl; [by apply IH|done].
  - simpl. destruct (Htool state) as [update ->]. simpl. by apply IH.
Qed.

(** An exhausted run leaves every specialist's function without a result. *)
Lemma run_specialist_pending which environ fuel query :
  is_Some (environ !! "GEMINI_API_KEY") ->
  (forall st update, tool_node st = Return update -> messages update <> []) ->
  ending (machine fuel Agent {| messages := [HumanMessage query] |}) = Pending ->
  run_specialist which environ model_invoke SYSTEM_PROMPT tool_node fuel query = None.
Proof.
  intros [key Hkey] Hne Hend.
  assert (Hplain : run_invoke_agent environ model_invoke SYSTEM_PROMPT tool_node fuel query
                   = None).
  { unfold run_invoke_agent, create_and_invoke, environ_get, invoke, stream.
    by rewrite Hkey, Hend. }
  assert (Hstream : run_stream_agent environ model_invoke SYSTEM_PROMPT tool_node fuel query
                    = None).
  { unfold run_stream_agent, environ_get, stream. rewrite Hkey.
    pose proof (scan_events_ending SYSTEM_PROMPT model_invoke tool_node fuel Agent
                  {| messages := [HumanMessage query] |} "" Hne) as Hscan.
    by rewrite Hend in Hscan. }
  destruct which; simpl; first [exact Hplain | exact Hstream].
Qed.

End BudgetFacts.


